(** * nkms.policy.models: contracts, policies, treasure maps and work orders

    A shallow embedding of [src/nkms/policy/models.py] and the properties of
    its protocol logic.  Python objects become records, exceptions become the
    [Raise] case of [result], mutation becomes explicit state passing, and the
    collaborators the module imports (the cryptographic suite, msgpack, the
    identity actors) are the operations of the class [Collaborators]. *)

From Stdlib Require Import ZArith NArith Lia Bool.
From stdpp Require Import base option countable gmap list strings.

#[local] Set Warnings "-clear-no-such-hyp".


(** ** Python values *)

Abbreviation byte := Byte.byte.

(** A Python [bytes] object. *)
Definition bytes : Type := list byte.

(** A [bytes] literal, [b"..."]. *)
Definition blit (s : string) : bytes := String.list_byte_of_string s.

#[global] Instance byte_eq_dec : EqDecision byte := Byte.byte_eq_dec.

#[global] Instance byte_countable : Countable byte :=
  inj_countable Byte.to_N Byte.of_N Byte.of_to_N.

(** Modelled from the spec: the key fragment type ([KFrag] of
    [nkms.crypto.fragments], [UNKNOWN_KFRAG] of [npre.constants]).  A
    fragment is opaque apart from its serialization; until one is assigned
    a contract holds the placeholder "unknown" value. *)
Inductive KFragV : Type :=
| UNKNOWN_KFRAG
| KFrag (serialized : bytes).

#[global] Instance KFragV_eq_dec : EqDecision KFragV.
Proof. solve_decision. Defined.

#[global] Instance KFragV_countable : Countable KFragV :=
  inj_countable'
    (fun k => match k with UNKNOWN_KFRAG => None | KFrag s => Some s end)
    (fun o => match o with None => UNKNOWN_KFRAG | Some s => KFrag s end)
    (fun k => match k with UNKNOWN_KFRAG => eq_refl | KFrag _ => eq_refl end).

(** Modelled from the spec: the ciphertext fragment type ([PFrag] of
    [nkms.crypto.fragments]), opaque apart from its serialization. *)
Record PFrag : Type := mkPFrag { pfrag_bytes : bytes }.

(** The exceptions the module can end with. *)
Inductive exn : Type :=
| KeyError (key : KFragV)
| AttributeError (type_name attribute : string)
| NameError (name : string)
| TypeError (message : string)
| ValueError (message : string)
| MalformedPayload
| CollaboratorError (name : string).

(** The outcome of a call: a value, or a raised exception. *)
Inductive result (A : Type) : Type :=
| Ok (value : A)
| Raise (e : exn).
Arguments Ok {A} value.
Arguments Raise {A} e.

#[global] Instance result_ret : MRet result := fun A x => Ok x.
#[global] Instance result_bind : MBind result := fun A B f r =>
  match r with
  | Ok x => f x
  | Raise e => Raise e
  end.

(** Calls that mutate an object or talk to the network: the state [S] is
    threaded through, and survives a raised exception as it does in Python. *)
Definition M (S A : Type) : Type := S -> result A * S.

#[global] Instance M_ret {S} : MRet (M S) := fun A x s => (Ok x, s).
#[global] Instance M_bind {S} : MBind (M S) := fun A B f m s =>
  match m s with
  | (Ok x, s') => f x s'
  | (Raise e, s') => (Raise e, s')
  end.

Definition lift {S A} (r : result A) : M S A := fun s => (r, s).
Definition get {S} : M S S := fun s => (Ok s, s).
Definition put {S} (s : S) : M S unit := fun _ => (Ok tt, s).

(** [for x in xs: body(x)] *)
Fixpoint py_for {S A} (xs : list A) (body : A -> M S unit) : M S unit :=
  match xs with
  | [] => mret tt
  | x :: rest => _ ← body x; py_for rest body
  end.

(** [[f(x) for x in xs]] for a pure, fallible [f]. *)
Fixpoint py_map {A B} (f : A -> result B) (xs : list A) : result (list B) :=
  match xs with
  | [] => Ok []
  | x :: rest => y ← f x; ys ← py_map f rest; Ok (y :: ys)
  end.

(** ** msgpack values

    The values msgpack carries in this protocol. *)
#[warnings="-register-all"]
Inductive mp : Type :=
| MNil
| MInt (n : N)
| MBytes (data : bytes)
| MArray (items : list mp).

(** Iterating a decoded value, as tuple unpacking and comprehensions do:
    a list yields its items, [bytes] yields its bytes as integers, the rest
    is not iterable. *)
Definition py_iter (v : mp) : result (list mp) :=
  match v with
  | MArray items => Ok items
  | MBytes data => Ok (map (fun x => MInt (Byte.to_N x)) data)
  | MNil => Raise (TypeError "'NoneType' object is not iterable")
  | MInt _ => Raise (TypeError "'int' object is not iterable")
  end.

(** [(x, y) = v] *)
Definition unpack_pair (v : mp) : result (mp * mp) :=
  items ← py_iter v;
  match items with
  | [x; y] => Ok (x, y)
  | _ :: _ :: _ :: _ => Raise (ValueError "too many values to unpack (expected 2)")
  | _ => Raise (ValueError "not enough values to unpack (expected 2)")
  end.

(** A value used where the collaborators require [bytes]. *)
Definition as_bytes (v : mp) : result bytes :=
  match v with
  | MBytes data => Ok data
  | _ => Raise (TypeError "a bytes-like object is required")
  end.

(** ** Identity actors *)

(** Modelled from the spec: the identity actors of [nkms.characters] (Alice,
    Bob, Ursula), which the module only uses through their interface: the
    public signing key ([bytes(actor.seal)]), signing ([actor.seal(message)]),
    the discovery identifier of a proxy ([interface_dht_key()]) and the
    registry of actors an actor has learnt about. *)
Record Character : Type := mkCharacter {
  seal_bytes : bytes;
  signing_key : option bytes;
  interface_dht_key : bytes;
  known_actors : list bytes;
}.

(** Modelled from the spec: [Alice.from_pubkey_sig_bytes] and
    [Bob.from_pubkey_sig_bytes] of [nkms.characters], which resolve an
    identity from its public key: an actor known by that key only. *)
Definition from_pubkey_sig_bytes (pubkey_sig : bytes) : Character :=
  {| seal_bytes := pubkey_sig; signing_key := None;
     interface_dht_key := []; known_actors := [] |}.

(** Modelled from the spec: [actor.learn_about_actor(other)] of
    [nkms.characters], which adds [other] to the registry of [actor]. *)
Definition learn_about_actor (actor other : Character) : Character :=
  {| seal_bytes := seal_bytes actor; signing_key := signing_key actor;
     interface_dht_key := interface_dht_key actor;
     known_actors := seal_bytes other :: known_actors actor |}.

(** ** Collaborators

    What the module imports and does not define: the cryptographic suite
    ([nkms.crypto]), msgpack, and the encryption services of the actors. *)
Class Collaborators : Type := {
  (** widths of the fixed-width fields [Signature], [PublicKey], [KFrag] *)
  signature_len : nat;
  pubkey_len : nat;
  kfrag_len : nat;
  (** [keccak_digest] of its messages, in order *)
  keccak_digest : list bytes -> bytes;
  (** the signature a private key puts on a message *)
  ecdsa_sign : bytes -> bytes -> bytes;
  (** [signature.verify(message, pubkey)] *)
  signature_verify : bytes -> bytes -> bytes -> bool;
  (** [bytes(UNKNOWN_KFRAG)] *)
  unknown_kfrag_bytes : bytes;
  (** [PFrag(serialized)] *)
  PFrag_init : bytes -> result PFrag;
  msgpack_dumps : mp -> bytes;
  msgpack_loads : bytes -> result mp;
  (** [sender.encrypt_for(recipient, cleartext)], giving the ciphertext and
      the signature *)
  encrypt_for : Character -> option Character -> bytes -> result (mp * bytes);
  (** [receiver.verify_from(sender, message, decrypt=True,
      signature_is_on_cleartext=True)], giving the verification flag and the
      cleartext *)
  verify_from : Character -> Character -> mp -> result (bool * bytes);
  (** [server.set(key, value)] run to completion on the event loop: the
      storage network acknowledges, or the call raises *)
  storage_set : bytes -> bytes -> result unit;
}.

(** ** Binary payload codec *)

(** Modelled from the spec: [BytestringSplitter] of [nkms.crypto.utils].  A
    payload is a run of fixed-width fields followed by a remainder; splitting
    fails with [MalformedPayload] when the payload is shorter than the fields
    require. *)
Fixpoint split_fields (widths : list nat) (splittable : bytes)
  : result (list bytes * bytes) :=
  match widths with
  | [] => Ok ([], splittable)
  | w :: rest =>
      if length splittable <? w then Raise MalformedPayload
      else
        '(fields, remainder) ← split_fields rest (drop w splittable);
        Ok (take w splittable :: fields, remainder)
  end.

Section Protocol.
Context `{Collaborators}.

(** Modelled from the spec: a call of a [BytestringSplitter] with
    [return_remainder=True], which returns the remainder as it is. *)
Definition split_return_remainder (widths : list nat) (splittable : bytes)
  : result (list bytes * bytes) :=
  split_fields widths splittable.

(** Modelled from the spec: a call of a [BytestringSplitter] with
    [msgpack_remainder=True], which decodes the remainder with msgpack. *)
Definition split_msgpack_remainder (widths : list nat) (splittable : bytes)
  : result (list bytes * mp) :=
  '(fields, remainder) ← split_fields widths splittable;
  decoded ← msgpack_loads remainder;
  Ok (fields, decoded).

(** Modelled from the spec: [actor.seal(message)] of [nkms.characters],
    the actor's signature on the message; an actor known by its public key
    only has nothing to sign with. *)
Definition seal_call (actor : Character) (message : bytes) : result bytes :=
  match signing_key actor with
  | Some key => Ok (ecdsa_sign key message)
  | None => Raise (CollaboratorError "NoSigningPower")
  end.

(** [bytes(kfrag)] *)
Definition kfrag_to_bytes (k : KFragV) : bytes :=
  match k with
  | UNKNOWN_KFRAG => unknown_kfrag_bytes
  | KFrag serialized => serialized
  end.

End Protocol.

(** ** Contract

    The status of the agreement between Alice and one Ursula. *)

(** What a candidate proxy answered to an offer. *)
Record NegotiationResult : Type := { was_accepted : bool }.

Module Contract.

Record t : Type := mk {
  alice : Character;
  expiration : Z;
  deposit : option Z;
  ursula : option Character;
  kfrag : KFragV;
  encrypted_challenge_pack : option bytes;
  (** set by [activate] only *)
  negotiation_result : option NegotiationResult;
}.

(** The arguments of one call of the constructor, each absent ([None])
    or supplied. *)
Record args : Type := mk_args {
  arg_alice : option Character;
  arg_expiration : option Z;
  arg_deposit : option (option Z);
  arg_ursula : option (option Character);
  arg_kfrag : option KFragV;
  arg_alices_signature : option (option bytes);
  arg_encrypted_challenge_pack : option (option bytes);
}.

(** What a call that supplies no [expiration] raises. *)
Definition missing_expiration : exn :=
  TypeError "__init__() missing 1 required positional argument: 'expiration'".

(** [__init__(self, alice, expiration, deposit=None, ursula=None,
    kfrag=UNKNOWN_KFRAG, alices_signature=None,
    encrypted_challenge_pack=None)]: [alice] and [expiration] have no
    default, and [alices_signature] is not stored. *)
Definition __init__ (a : args) : result t :=
  match arg_alice a, arg_expiration a with
  | Some alice, Some expiration =>
      Ok {| alice := alice;
            expiration := expiration;
            deposit := default None (arg_deposit a);
            ursula := default None (arg_ursula a);
            kfrag := default UNKNOWN_KFRAG (arg_kfrag a);
            encrypted_challenge_pack :=
              default None (arg_encrypted_challenge_pack a);
            negotiation_result := None |}
  | Some _, None => Raise missing_expiration
  | None, Some _ =>
      Raise (TypeError
        "__init__() missing 1 required positional argument: 'alice'")
  | None, None =>
      Raise (TypeError
        "__init__() missing 2 required positional arguments: 'alice' and 'expiration'")
  end.

Definition activate (self : t) (kfrag : KFragV) (ursula : Character)
    (negotiation_result : NegotiationResult) : t :=
  {| alice := alice self;
     expiration := expiration self;
     deposit := deposit self;
     ursula := Some ursula;
     kfrag := kfrag;
     encrypted_challenge_pack := encrypted_challenge_pack self;
     negotiation_result := Some negotiation_result |}.

Section WithCollaborators.
Context `{Collaborators}.

Definition payload (self : t) : bytes :=
  kfrag_to_bytes (kfrag self) ++ blit "This might be a ChallengePack".

(** The ciphertext only: the signature [encrypt_for] also gives is dropped. *)
Definition encrypt_payload_for_ursula (self : t) : result mp :=
  '(ciphertext, _) ← encrypt_for (alice self) (ursula self) (payload self);
  Ok ciphertext.

(** The proxy-side reconstruction.  The state is Ursula, who learns about
    Alice on the way. *)
Definition from_ursula (group_payload : bytes) : M Character t :=
  '(fields, payload_encrypted_for_ursula) ←
    lift (split_msgpack_remainder [pubkey_len] group_payload);
  match fields with
  | [alice_pubkey_sig] =>
      let alice := from_pubkey_sig_bytes alice_pubkey_sig in
      ursula ← get;
      _ ← put (learn_about_actor ursula alice);
      ursula ← get;
      '(verified, cleartext) ←
        lift (verify_from ursula alice payload_encrypted_for_ursula);
      _ ← (if negb verified
           then mret tt   (* pass *)
           else mret tt);
      '(fields, policy_payload) ←
        lift (split_return_remainder [signature_len] cleartext);
      match fields with
      | [alices_signature] =>
          '(fields, encrypted_challenge_pack) ←
            lift (split_return_remainder [kfrag_len] policy_payload);
          match fields with
          | [kfrag] =>
              lift (__init__
                {| arg_alice := Some alice;
                   arg_expiration := None;
                   arg_deposit := None;
                   arg_ursula := None;
                   arg_kfrag := Some (KFrag kfrag);
                   arg_alices_signature := Some (Some alices_signature);
                   arg_encrypted_challenge_pack :=
                     Some (Some encrypted_challenge_pack) |})
          | _ => lift (Raise (ValueError "unpack"))
          end
      | _ => lift (Raise (ValueError "unpack"))
      end
  | _ => lift (Raise (ValueError "unpack"))
  end.

End WithCollaborators.
End Contract.

(** ** The network

    What [networky_stuff.enact_policy(ursula, hrac, payload)] answers, and
    the record of the calls made on the network. *)
Record NetworkClient : Type := {
  enact_policy : option Character -> bytes -> bytes -> result mp;
}.

Record World : Type := mkWorld {
  (** the calls of [enact_policy] made so far, oldest first *)
  transmissions : list (option Character * bytes * bytes);
  (** the [set] calls made on the storage network, oldest first *)
  dht_sets : list (bytes * bytes);
}.

Definition record_transmission (w : World) (ursula : option Character)
    (hrac payload : bytes) : World :=
  {| transmissions := transmissions w ++ [(ursula, hrac, payload)];
     dht_sets := dht_sets w |}.

Definition record_set (w : World) (key value : bytes) : World :=
  {| transmissions := transmissions w;
     dht_sets := dht_sets w ++ [(key, value)] |}.

(** Modelled from the spec: the send of the network client,
    [networky_stuff.enact_policy(ursula, hrac, payload)], which answers or
    raises; the call is put on record either way. *)
Definition transmit (networky_stuff : NetworkClient)
    (ursula : option Character) (hrac payload : bytes) : M World mp :=
  fun w =>
    (enact_policy networky_stuff ursula hrac payload,
     record_transmission w ursula hrac payload).

(** Modelled from the spec: the upsert of the discovery/storage network
    client, [server.set(key, value)] run to completion on the event loop,
    which is acknowledged or raises (the network is unavailable, the event
    loop fails); the call is put on record either way. *)
Definition server_set `{Collaborators} (key value : bytes) : M World unit :=
  fun w => (storage_set key value, record_set w key value).

(** ** Name resolution

    The attributes of the built-in [list], and the names bound at the top
    level of the module. *)
Definition list_attributes : list string :=
  ["append"; "clear"; "copy"; "count"; "extend"; "index"; "insert"; "pop";
   "remove"; "reverse"; "sort"].

Definition module_globals : list string :=
  ["asyncio"; "binascii"; "msgpack"; "Alice"; "Bob"; "Ursula"; "api";
   "keccak_digest"; "NOT_SIGNED"; "KFrag"; "PFrag"; "EncryptingPower";
   "Signature"; "BytestringSplitter"; "PublicKey"; "UNKNOWN_KFRAG";
   "group_payload_splitter"; "policy_payload_splitter"; "Contract";
   "PolicyOfferResponse"; "PolicyManager"; "PolicyManagerForAlice";
   "PolicyGroup"; "Policy"; "TreasureMap"; "WorkOrder"].

Definition getattr_list (attribute : string) : result unit :=
  if bool_decide (attribute ∈ list_attributes) then Ok tt
  else Raise (AttributeError "list" attribute).

Definition load_global (name : string) : result unit :=
  if bool_decide (name ∈ module_globals) then Ok tt
  else Raise (NameError name).

(** ** Policy

    An individual agreement between Alice and Ursula. *)

(** Modelled from the spec: the owner's signature on a policy, or the
    constant [NOT_SIGNED] of [nkms.crypto.constants]. *)
Inductive SignatureV : Type :=
| NOT_SIGNED
| Signed (signature : bytes).

Module Policy.

(** [treasure_map] is the Python [list] that [__init__] assigns. *)
Record t : Type := mk {
  alice : Character;
  bob : option Character;
  alices_signature : SignatureV;
  kfrags : list KFragV;
  pfrag : option PFrag;
  uri : option bytes;
  random_id_portion : bytes;
  challenge_size : nat;
  treasure_map : list bytes;
  challenge_pack : list mp;
  _active_contracts : gmap KFragV Contract.t;
  _encrypted_challenge_pack : option (mp * bytes);
  _ursula : option Character;
}.

(** [__init__], with [secure_random] the 32 bytes it draws; the arguments
    left out take their defaults. *)
Definition __init__ (alice : Character) (bob : option Character)
    (kfrags : list KFragV) (pfrag : option PFrag) (uri : option bytes)
    (secure_random : bytes) : t :=
  {| alice := alice; bob := bob; alices_signature := NOT_SIGNED;
     kfrags := kfrags; pfrag := pfrag; uri := uri;
     random_id_portion := secure_random;
     challenge_size := 20;
     treasure_map := [];
     challenge_pack := [];
     _active_contracts := ∅;
     _encrypted_challenge_pack := None;
     _ursula := None |}.

Definition from_alice (kfrags : list KFragV) (pfrag : option PFrag)
    (alice : Character) (bob : option Character) (uri : option bytes)
    (secure_random : bytes) : t :=
  __init__ alice bob kfrags pfrag uri secure_random.

Definition n (self : t) : nat := length (kfrags self).

(** The property [ursula]. *)
Definition ursula (self : t) : result Character :=
  match _ursula self with
  | Some u => Ok u
  | None => Raise (CollaboratorError "Ursula.NotFound")
  end.

(** Recording the active contract of a fragment, as
    [self._active_contracts[kfrag] = contract] does. *)
Definition with_active_contract (self : t) (kfrag : KFragV)
    (contract : Contract.t) : t :=
  {| alice := alice self; bob := bob self;
     alices_signature := alices_signature self;
     kfrags := kfrags self; pfrag := pfrag self; uri := uri self;
     random_id_portion := random_id_portion self;
     challenge_size := challenge_size self;
     treasure_map := treasure_map self;
     challenge_pack := challenge_pack self;
     _active_contracts := <[kfrag := contract]> (_active_contracts self);
     _encrypted_challenge_pack := _encrypted_challenge_pack self;
     _ursula := _ursula self |}.

(** [Contract(self.alice, deposit, expiration)]: the arguments are bound
    by position, to [alice], [expiration], [deposit] in that order. *)
Definition craft_offer (self : t) (deposit expiration : Z)
  : result Contract.t :=
  Contract.__init__
    {| Contract.arg_alice := Some (alice self);
       Contract.arg_expiration := Some deposit;
       Contract.arg_deposit := Some (Some expiration);
       Contract.arg_ursula := None;
       Contract.arg_kfrag := None;
       Contract.arg_alices_signature := None;
       Contract.arg_encrypted_challenge_pack := None |}.

Section WithCollaborators.
Context `{Collaborators}.

(** The hashed resource authentication code. *)
Definition hrac_for (alice bob : Character) (uri : bytes) : bytes :=
  keccak_digest [seal_bytes alice ++ seal_bytes bob ++ uri].

(** [self.hrac()]; a policy without a Bob or without a uri has nothing to
    take [.seal] of, or to concatenate. *)
Definition hrac (self : t) : result bytes :=
  match bob self with
  | None => Raise (AttributeError "NoneType" "seal")
  | Some bob =>
      match uri self with
      | None => Raise (TypeError "can't concat NoneType to bytes")
      | Some uri => Ok (hrac_for (alice self) bob uri)
      end
  end.

Definition get_self : M (t * World) t := fun s => (Ok s.1, s).

Definition in_world {A} (m : M World A) : M (t * World) A :=
  fun s => let '(r, w) := m s.2 in (r, (s.1, w)).

(** [self._active_contracts[kfrag]] *)
Definition active_contract (self : t) (kfrag : KFragV)
  : result Contract.t :=
  match _active_contracts self !! kfrag with
  | Some contract => Ok contract
  | None => Raise (KeyError kfrag)
  end.

(** [self.treasure_map.add_ursula(policy.ursula)]: Python loads the
    attribute [add_ursula] of [self.treasure_map], the [list] that
    [__init__] assigned, then evaluates the argument, whose name [policy]
    is bound neither in [enact] nor in the module, then calls.  The call
    itself has no counterpart here: it would be a call of whatever the two
    lookups had found. *)
Definition add_ursula_statement : M (t * World) unit :=
  _ ← lift (getattr_list "add_ursula");
  _ ← lift (load_global "policy");
  lift (Raise (CollaboratorError "call outside the model")).

Definition enact_body (networky_stuff : NetworkClient) (kfrag : KFragV)
  : M (t * World) unit :=
  self ← get_self;
  contract ← lift (active_contract self kfrag);
  policy_payload ← lift (Contract.encrypt_payload_for_ursula contract);
  let full_payload :=
    seal_bytes (alice self) ++ msgpack_dumps policy_payload in
  hrac ← lift (hrac self);
  response ← in_world
    (transmit networky_stuff (Contract.ursula contract) hrac full_payload);
  (* Assuming response is what we hope for *)
  add_ursula_statement.

Definition enact (networky_stuff : NetworkClient) : M (t * World) unit :=
  self ← get_self;
  py_for (kfrags self) (enact_body networky_stuff).

Definition with_encrypted_challenge_pack (self : t) (pack : mp * bytes) : t :=
  {| alice := alice self; bob := bob self;
     alices_signature := alices_signature self;
     kfrags := kfrags self; pfrag := pfrag self; uri := uri self;
     random_id_portion := random_id_portion self;
     challenge_size := challenge_size self;
     treasure_map := treasure_map self;
     challenge_pack := challenge_pack self;
     _active_contracts := _active_contracts self;
     _encrypted_challenge_pack := Some pack;
     _ursula := _ursula self |}.

(** The property [encrypted_challenge_pack]: what [encrypt_for] gave the
    first time is kept on the policy and handed out from then on. *)
Definition encrypted_challenge_pack : M t (mp * bytes) :=
  fun self =>
    match _encrypted_challenge_pack self with
    | Some pack => (Ok pack, self)
    | None =>
        match bob self with
        | None =>
            (Raise (TypeError
               "This Policy doesn't have a Bob, so there's no way to encrypt a ChallengePack for Bob."),
             self)
        | Some bob =>
            match encrypt_for (alice self) (Some bob)
                    (msgpack_dumps (MArray (challenge_pack self))) with
            | Ok pack => (Ok pack, with_encrypted_challenge_pack self pack)
            | Raise e => (Raise e, self)
            end
        end
    end.

End WithCollaborators.

(** The setter of the property [ursula]: Alice learns about the proxy, and
    the proxy becomes the policy's. *)
Definition set_ursula (self : t) (ursula_object : Character) : t :=
  {| alice := learn_about_actor (alice self) ursula_object;
     bob := bob self;
     alices_signature := alices_signature self;
     kfrags := kfrags self; pfrag := pfrag self; uri := uri self;
     random_id_portion := random_id_portion self;
     challenge_size := challenge_size self;
     treasure_map := treasure_map self;
     challenge_pack := challenge_pack self;
     _active_contracts := _active_contracts self;
     _encrypted_challenge_pack := _encrypted_challenge_pack self;
     _ursula := Some ursula_object |}.

(** What [networky_stuff.find_ursula(contract)] does: it returns a proxy
    and what the proxy answered, raises [NotEnoughQualifiedUrsulas], or
    raises something else. *)
Inductive find_outcome : Type :=
| Found (ursula : Character) (result : NegotiationResult)
| NotEnoughQualifiedUrsulas
| FindFailed (e : exn).

(** The discovery side of the network client; the answer may depend on how
    many calls came before and on the contract as it is at the call. *)
Record Discovery : Type := {
  find_ursula : nat -> Contract.t -> find_outcome;
}.

(** The objects [find_n_ursulas] works on.  The one [contract] it is given
    is an object the policy's dictionary comes to hold, under every
    fragment in [aliases]: what [activate] does to it shows under each of
    them. *)
Record Negotiation : Type := mkNegotiation {
  policy : t;
  contract : Contract.t;
  aliases : gset KFragV;
  finds : nat;
}.

Definition with_contracts (self : t) (contracts : gmap KFragV Contract.t) : t :=
  {| alice := alice self; bob := bob self;
     alices_signature := alices_signature self;
     kfrags := kfrags self; pfrag := pfrag self; uri := uri self;
     random_id_portion := random_id_portion self;
     challenge_size := challenge_size self;
     treasure_map := treasure_map self;
     challenge_pack := challenge_pack self;
     _active_contracts := contracts;
     _encrypted_challenge_pack := _encrypted_challenge_pack self;
     _ursula := _ursula self |}.

(** [contract.activate(kfrag, ursula, result)] followed by
    [self._active_contracts[kfrag] = contract], the contract being one
    object. *)
Definition activate_and_record (s : Negotiation) (kfrag : KFragV)
    (ursula : Character) (result : NegotiationResult) : Negotiation :=
  let activated := Contract.activate (contract s) kfrag ursula result in
  let held := {[kfrag]} ∪ aliases s in
  {| policy :=
       with_contracts (policy s)
         (gset_to_gmap activated held ∪ _active_contracts (policy s));
     contract := activated;
     aliases := held;
     finds := S (finds s) |}.

Definition count_find (s : Negotiation) : Negotiation :=
  {| policy := policy s; contract := contract s; aliases := aliases s;
     finds := S (finds s) |}.

(** One turn of the loop of [find_n_ursulas]. *)
Definition find_turn (networky_stuff : Discovery) (kfrag : KFragV)
  : M Negotiation unit :=
  fun s =>
    match find_ursula networky_stuff (finds s) (contract s) with
    | Found ursula result =>
        if was_accepted result
        then (Ok tt, activate_and_record s kfrag ursula result)
        else (Ok tt, count_find s)
    | NotEnoughQualifiedUrsulas => (Ok tt, count_find s)   (* pass *)
    | FindFailed e => (Raise e, count_find s)
    end.

Definition find_n_ursulas (networky_stuff : Discovery) : M Negotiation unit :=
  fun s => py_for (kfrags (policy s)) (find_turn networky_stuff) s.

End Policy.

(** ** Treasure map *)
Module TreasureMap.

(** A treasure map as a value: the identifiers its list holds.  Which list
    object holds them, and which other maps hold that same object, is the
    matter of [obj], [init_in] and [add_ursula_in] below. *)
Record t : Type := mk { ids : list bytes }.

(** The identifiers of a map made by [__init__]. *)
Definition __init__ (ursula_interface_ids : option (list bytes)) : t :=
  {| ids := default [] ursula_interface_ids |}.

(** The identifiers of the map after [add_ursula]: the call appends to the
    list in place, see [add_ursula_in]. *)
Definition add_ursula (self : t) (ursula : Character) : t :=
  {| ids := ids self ++ [interface_dht_key ursula] |}.

Definition __eq__ (self other : t) : bool :=
  bool_decide (ids self = ids other).

Definition __len__ (self : t) : nat := length (ids self).

Definition packed_payload `{Collaborators} (self : t) : bytes :=
  msgpack_dumps (MArray (map MBytes (ids self))).

(** A treasure map as an object: the place, in a store of Python lists, of
    the list [self.ids] it holds.  Two maps with one place share their
    list. *)
Record obj : Type := mk_obj { ids_at : nat }.

(** The map as a value, in a store. *)
Definition view (store : gmap nat (list bytes)) (self : obj) : t :=
  {| ids := default [] (store !! ids_at self) |}.

(** [TreasureMap(ursula_interface_ids)], the argument being a list of the
    store or left out.  [self.ids = ursula_interface_ids or []] keeps the
    very list it is given unless that list is empty; for an empty list and
    for no list it makes a new empty one. *)
Definition init_in (ursula_interface_ids : option nat)
  : M (gmap nat (list bytes)) obj :=
  fun store =>
    let new_list := fresh (dom store) in
    match ursula_interface_ids with
    | Some given =>
        match store !! given with
        | Some (_ :: _) => (Ok {| ids_at := given |}, store)
        | _ => (Ok {| ids_at := new_list |}, <[new_list := []]> store)
        end
    | None => (Ok {| ids_at := new_list |}, <[new_list := []]> store)
    end.

(** [self.ids.append(ursula.interface_dht_key())], in place. *)
Definition add_ursula_in (self : obj) (ursula : Character)
  : M (gmap nat (list bytes)) unit :=
  fun store =>
    (Ok tt,
     alter (fun held => held ++ [interface_dht_key ursula]) (ids_at self)
       store).

(** [self == other], in a store. *)
Definition eq_in (store : gmap nat (list bytes)) (self other : obj) : bool :=
  __eq__ (view store self) (view store other).

End TreasureMap.

(** ** Policy group *)
Module PolicyGroup.

(** [hrac_attribute] is what looking up and calling [self.hrac] gives when
    the object has such an attribute.  The class defines none and
    [__init__] sets none, so a group made by the constructor has [None]
    there. *)
Record t : Type := mk {
  policies : list Policy.t;
  alice : Character;
  bob : Character;
  uri : bytes;
  treasure_map : TreasureMap.t;
  _id : option bytes;
  hrac_attribute : option (result bytes);
}.

Definition __init__ (uri : bytes) (alice bob : Character)
    (policies : option (list Policy.t)) : t :=
  {| policies := default [] policies;
     alice := alice; bob := bob; uri := uri;
     treasure_map := TreasureMap.__init__ None;
     _id := None;
     hrac_attribute := None |}.

Section WithCollaborators.
Context `{Collaborators}.

Definition hash (message : bytes) : bytes := keccak_digest [message].

(** [self.hrac()] *)
Definition call_hrac (self : t) : result bytes :=
  match hrac_attribute self with
  | Some outcome => outcome
  | None => Raise (AttributeError "PolicyGroup" "hrac")
  end.

Definition treasure_map_dht_key (self : t) : result bytes :=
  hrac ← call_hrac self;
  Ok (hash (seal_bytes (alice self) ++ hrac)).

(** The property [id], with its cache; an empty cached value counts as
    none ([if not self._id]). *)
Definition id (self : t) : bytes * t :=
  match _id self with
  | Some ((_ :: _) as cached) => (cached, self)
  | _ =>
      let fresh :=
        keccak_digest [seal_bytes (alice self); keccak_digest [uri self]] in
      (fresh,
       {| policies := policies self;
          alice := alice self; bob := bob self; uri := uri self;
          treasure_map := treasure_map self; _id := Some fresh;
          hrac_attribute := hrac_attribute self |})
  end.

Definition publish_treasure_map (self : t)
  : M World (mp * bytes * bytes * bytes) :=
  '(encrypted_treasure_map, signature_for_bob) ←
    lift (encrypt_for (alice self) (Some (bob self))
            (TreasureMap.packed_payload (treasure_map self)));
  hrac ← lift (call_hrac self);
  signature_for_ursula ← lift (seal_call (alice self) hrac);
  hrac ← lift (call_hrac self);
  let dht_value :=
    signature_for_ursula ++ seal_bytes (alice self) ++ hrac
      ++ msgpack_dumps encrypted_treasure_map in
  dht_key ← lift (treasure_map_dht_key self);
  _ ← server_set dht_key (blit "trmap" ++ dht_value);
  mret (encrypted_treasure_map, dht_value, signature_for_bob,
        signature_for_ursula).

End WithCollaborators.
End PolicyGroup.

(** ** Work order *)
Module WorkOrder.

Record t : Type := mk {
  bob : Character;
  kfrag_hrac : bytes;
  pfrags : list PFrag;
  receipt_bytes : bytes;
  receipt_signature : bytes;
  ursula_id : option bytes;
}.

Definition __eq__ (self other : t) : bool :=
  bool_decide ((receipt_bytes self, receipt_signature self)
               = (receipt_bytes other, receipt_signature other)).

Definition __len__ (self : t) : nat := length (pfrags self).

(** [binascii.hexlify]: two lower-case hexadecimal digits a byte. *)
Definition hex_digit (n : N) : byte :=
  default Byte.x00 (Byte.of_N (if (n <? 10)%N then 48 + n else 87 + n)).

Definition hexlify (data : bytes) : bytes :=
  flat_map
    (fun x => [hex_digit (Byte.to_N x / 16); hex_digit (Byte.to_N x mod 16)])
    data.

(** What [str.format] prints for a [bytes] of hexadecimal digits, and for a
    list of them. *)
Definition str_of_hex (digits : bytes) : string :=
  String.append "b'" (String.append (String.string_of_list_byte digits) "'").

Definition str_of_hex_list (items : list bytes) : string :=
  String.append "[" (String.append (String.concat ", " (map str_of_hex items)) "]").

(** [__repr__]: the first six digits of each fragment, of the receipt and
    of the proxy identifier; [hexlify] takes no [None]. *)
Definition __repr__ (self : t) : result string :=
  let shown_pfrags :=
    map (fun p => take 6 (hexlify (pfrag_bytes p))) (pfrags self) in
  let shown_receipt := take 6 (hexlify (receipt_bytes self)) in
  match ursula_id self with
  | None =>
      Raise (TypeError "a bytes-like object is required, not 'NoneType'")
  | Some ursula_id =>
      Ok (String.append "WorkOrder (pfrags: "
           (String.append (str_of_hex_list shown_pfrags)
             (String.append ") "
               (String.append (str_of_hex shown_receipt)
                 (String.append " for "
                   (str_of_hex (take 6 (hexlify ursula_id))))))))
  end.

(** The exception that answers an order whose signature does not verify:
    [ValueError("This doesn't appear to be from Bob.")]. *)
Definition UnauthenticatedOrder : exn :=
  ValueError "This doesn't appear to be from Bob.".

Section WithCollaborators.
Context `{Collaborators}.

Definition constructed_by_bob (kfrag_hrac : bytes) (pfrags : list PFrag)
    (ursula_dht_key : bytes) (bob : Character) : result t :=
  let receipt_bytes := blit "wo:" ++ ursula_dht_key in
  receipt_signature ← seal_call bob receipt_bytes;
  Ok {| bob := bob; kfrag_hrac := kfrag_hrac; pfrags := pfrags;
        receipt_bytes := receipt_bytes;
        receipt_signature := receipt_signature;
        ursula_id := Some ursula_dht_key |}.

(** [[PFrag(p) for p in msgpack.loads(packed_pfrags)]] *)
Definition load_pfrags (packed_pfrags : mp) : result (list PFrag) :=
  packed_pfrags ← as_bytes packed_pfrags;
  unpacked ← msgpack_loads packed_pfrags;
  items ← py_iter unpacked;
  py_map (fun p => p ← as_bytes p; PFrag_init p) items.

Definition from_rest_payload (kfrag_hrac rest_payload : bytes) : result t :=
  '(fields, remainder) ←
    split_msgpack_remainder [signature_len; pubkey_len] rest_payload;
  match fields with
  | [signature; bob_pubkey_sig] =>
      '(receipt_bytes, packed_pfrags) ← unpack_pair remainder;
      pfrags ← load_pfrags packed_pfrags;
      receipt_bytes ← as_bytes receipt_bytes;
      let verified :=
        signature_verify signature receipt_bytes bob_pubkey_sig in
      if negb verified
      then Raise (ValueError "This doesn't appear to be from Bob.")
      else
        let bob := from_pubkey_sig_bytes bob_pubkey_sig in
        Ok {| bob := bob; kfrag_hrac := kfrag_hrac; pfrags := pfrags;
              receipt_bytes := receipt_bytes;
              receipt_signature := signature;
              ursula_id := None |}
  | _ => Raise (ValueError "unpack")
  end.

Definition payload (self : t) : bytes :=
  let pfrags_as_bytes := map pfrag_bytes (pfrags self) in
  let packed_receipt_and_pfrags :=
    msgpack_dumps
      (MArray [MBytes (receipt_bytes self);
               MBytes (msgpack_dumps (MArray (map MBytes pfrags_as_bytes)))])
  in
  receipt_signature self ++ seal_bytes (bob self)
    ++ packed_receipt_and_pfrags.

End WithCollaborators.
End WorkOrder.

(** ** What the protocol expects of its collaborators *)
Section Laws.
Context `{Collaborators}.

(** msgpack decodes a value it encoded. *)
Definition round_trips (v : mp) : Prop :=
  msgpack_loads (msgpack_dumps v) = Ok v.

(** The public key of the actor has the width of a [PublicKey]; what the
    actor signs has the width of a [Signature] and verifies against that
    public key. *)
Definition well_keyed (actor : Character) : Prop :=
  length (seal_bytes actor) = pubkey_len
  /\ forall key message,
       signing_key actor = Some key ->
       length (ecdsa_sign key message) = signature_len
       /\ signature_verify (ecdsa_sign key message) message (seal_bytes actor)
          = true.

(** A ciphertext fragment is rebuilt from its serialization. *)
Definition pfrags_restorable (pfrags : list PFrag) : Prop :=
  Forall (fun p => PFrag_init (pfrag_bytes p) = Ok p) pfrags.

(** The two values [WorkOrder.payload] hands to msgpack. *)
Definition packed_pfrags_of (pfrags : list PFrag) : mp :=
  MArray (map MBytes (map pfrag_bytes pfrags)).
Definition packed_receipt_of (receipt_bytes : bytes) (pfrags : list PFrag)
  : mp :=
  MArray [MBytes receipt_bytes; MBytes (msgpack_dumps (packed_pfrags_of pfrags))].

End Laws.

(** ** A runnable set of collaborators

    A small instance of [Collaborators] on which the protocol logic can be
    run: msgpack restricted to nil, small integers, byte strings and arrays;
    a two-byte checksum in place of the digest; and a signature scheme whose
    public and private keys coincide.  It is of no cryptographic value and
    serves to evaluate the module on concrete payloads. *)
Module Toy.

Definition byte_of_N (n : N) : byte :=
  default Byte.x00 (Byte.of_N (n mod 256)).

(** Big-endian encoding on [width] bytes. *)
Fixpoint be_bytes (width : nat) (n : N) : bytes :=
  match width with
  | 0 => []
  | S w => be_bytes w (n / 256) ++ [byte_of_N n]
  end.

Definition be_value (data : bytes) : N :=
  foldl (fun acc x => (acc * 256 + Byte.to_N x)%N) 0%N data.

Definition raw_header (len : nat) : bytes :=
  let n := N.of_nat len in
  if (n <? 32)%N then [byte_of_N (160 + n)]
  else if (n <? 65536)%N then byte_of_N 218 :: be_bytes 2 n
  else byte_of_N 219 :: be_bytes 4 n.

Definition array_header (len : nat) : bytes :=
  let n := N.of_nat len in
  if (n <? 16)%N then [byte_of_N (144 + n)]
  else if (n <? 65536)%N then byte_of_N 220 :: be_bytes 2 n
  else byte_of_N 221 :: be_bytes 4 n.

Fixpoint dumps (v : mp) : bytes :=
  match v with
  | MNil => [byte_of_N 192]
  | MInt n =>
      if (n <? 128)%N then [byte_of_N n] else byte_of_N 207 :: be_bytes 8 n
  | MBytes data => raw_header (length data) ++ data
  | MArray items => array_header (length items) ++ concat (map dumps items)
  end.

(** The first [len] bytes as a byte string, when there are that many. *)
Definition take_raw (len : N) (input : bytes) : option (mp * bytes) :=
  let k := N.to_nat len in
  if length input <? k then None
  else Some (MBytes (take k input), drop k input).

(** A length prefix of [width] bytes. *)
Definition take_len (width : nat) (input : bytes) : option (N * bytes) :=
  if length input <? width then None
  else Some (be_value (take width input), drop width input).

Fixpoint decode (fuel : nat) (input : bytes) : option (mp * bytes) :=
  match fuel with
  | 0 => None
  | S fuel =>
      let items :=
        fix items (count : nat) (input : bytes)
          : option (list mp * bytes) :=
          match count with
          | 0 => Some ([], input)
          | S count =>
              '(v, rest) ← decode fuel input;
              '(vs, rest) ← items count rest;
              Some (v :: vs, rest)
          end in
      let array count input :=
        '(vs, rest) ← items (N.to_nat count) input; Some (MArray vs, rest) in
      match input with
      | [] => None
      | tag :: rest =>
          let t := Byte.to_N tag in
          if (t <? 128)%N then Some (MInt t, rest)
          else if (t <? 144)%N then None
          else if (t <? 160)%N then array (t - 144)%N rest
          else if (t <? 192)%N then take_raw (t - 160)%N rest
          else if (t =? 192)%N then Some (MNil, rest)
          else if (t =? 196)%N || (t =? 217)%N then
            '(len, rest) ← take_len 1 rest; take_raw len rest
          else if (t =? 197)%N || (t =? 218)%N then
            '(len, rest) ← take_len 2 rest; take_raw len rest
          else if (t =? 198)%N || (t =? 219)%N then
            '(len, rest) ← take_len 4 rest; take_raw len rest
          else if (t =? 207)%N then
            '(n, rest) ← take_len 8 rest; Some (MInt n, rest)
          else if (t =? 220)%N then
            '(len, rest) ← take_len 2 rest; array len rest
          else if (t =? 221)%N then
            '(len, rest) ← take_len 4 rest; array len rest
          else None
      end
  end.

Definition loads (packed : bytes) : result mp :=
  match decode (S (length packed)) packed with
  | Some (v, []) => Ok v
  | Some (_, _ :: _) => Raise (CollaboratorError "msgpack.ExtraData")
  | None => Raise (CollaboratorError "msgpack.UnpackValueError")
  end.

(** Sum and length of the messages, each modulo 256. *)
Definition digest (messages : list bytes) : bytes :=
  let data := concat messages in
  [byte_of_N (foldl (fun acc x => (acc + Byte.to_N x)%N) 0%N data);
   byte_of_N (N.of_nat (length data))].

Definition sign (key message : bytes) : bytes := digest [key; message].

Definition verify (signature message pubkey : bytes) : bool :=
  bool_decide (signature = digest [pubkey; message]).

(** The ciphertext is the cleartext reversed. *)
Definition encrypt (sender : Character) (recipient : option Character)
    (cleartext : bytes) : result (mp * bytes) :=
  match signing_key sender, recipient with
  | Some key, Some _ => Ok (MBytes (rev cleartext), sign key cleartext)
  | None, _ => Raise (CollaboratorError "NoSigningPower")
  | _, None => Raise (AttributeError "NoneType" "public_key")
  end.

(** Decrypts, and verifies the signature that leads the cleartext. *)
Definition decrypt_and_verify (receiver sender : Character) (message : mp)
  : result (bool * bytes) :=
  ciphertext ← as_bytes message;
  let cleartext := rev ciphertext in
  Ok (verify (take 2 cleartext) (drop 2 cleartext) (seal_bytes sender),
      cleartext).

#[export] Instance collaborators : Collaborators := {|
  signature_len := 2;
  pubkey_len := 2;
  kfrag_len := 3;
  keccak_digest := digest;
  ecdsa_sign := sign;
  signature_verify := verify;
  unknown_kfrag_bytes := [];
  PFrag_init := fun serialized => Ok (mkPFrag serialized);
  msgpack_dumps := dumps;
  msgpack_loads := loads;
  encrypt_for := encrypt;
  verify_from := decrypt_and_verify;
  storage_set := fun _ _ => Ok tt;
|}.

(** An actor holding the key pair [key]. *)
Definition actor (key interface : string) : Character :=
  {| seal_bytes := blit key; signing_key := Some (blit key);
     interface_dht_key := blit interface; known_actors := [] |}.

Definition alice : Character := actor "Al" "".
Definition bob : Character := actor "Bo" "".
Definition ursula_p : Character := actor "Up" "dht-P".
Definition ursula_q : Character := actor "Uq" "dht-Q".

(** A network on which every transmission is acknowledged, and one on
    which none arrives. *)
Definition reliable : NetworkClient :=
  {| enact_policy := fun _ _ _ => Ok MNil |}.
Definition unreachable : NetworkClient :=
  {| enact_policy := fun _ _ _ => Raise (CollaboratorError "PeerUnreachable") |}.

Definition quiet : World := {| transmissions := []; dht_sets := [] |}.

End Toy.

(** ** Concrete runs

    Policies, payloads and work orders built with the runnable
    collaborators. *)
Module Scenario.
Import Toy.

Definition kf1 : KFragV := KFrag (blit "kf1").
Definition kf2 : KFragV := KFrag (blit "kf2").
Definition the_uri : bytes := blit "uri".

(** [Policy(alice, bob, kfrags, None, uri)] *)
Definition policy_of (kfrags : list KFragV) : Policy.t :=
  Policy.__init__ alice (Some bob) kfrags None (Some the_uri) [].

(** A contract accepted by a proxy for a fragment. *)
Definition active_contract_with (kfrag : KFragV) (ursula : Character)
  : Contract.t :=
  Contract.activate
    {| Contract.alice := alice; Contract.expiration := 100;
       Contract.deposit := Some 5%Z; Contract.ursula := None;
       Contract.kfrag := UNKNOWN_KFRAG;
       Contract.encrypted_challenge_pack := None;
       Contract.negotiation_result := None |}
    kfrag ursula {| was_accepted := true |}.

(** Two fragments, neither with a contract. *)
Definition unresolved_policy : Policy.t := policy_of [kf1; kf2].

(** One fragment, with its active contract. *)
Definition complete_policy : Policy.t :=
  Policy.with_active_contract (policy_of [kf1]) kf1
    (active_contract_with kf1 ursula_p).

(** A contract offer whose inner payload carries a signature that is not
    Alice's: [[ownerPublicKey][msgpack(encrypted inner payload)]], the
    cleartext being [[signature][fragment][challenge marker]]. *)
Definition forged_cleartext : bytes :=
  blit "??" ++ blit "kf1" ++ blit "This might be a ChallengePack".
Definition forged_group_payload : bytes :=
  seal_bytes alice ++ dumps (MBytes (rev forged_cleartext)).

(** The same offer with Alice's signature on the payload. *)
Definition signed_cleartext : bytes :=
  sign (blit "Al") (blit "kf1" ++ blit "This might be a ChallengePack")
    ++ blit "kf1" ++ blit "This might be a ChallengePack".
Definition signed_group_payload : bytes :=
  seal_bytes alice ++ dumps (MBytes (rev signed_cleartext)).

Definition the_hrac : bytes := Policy.hrac_for alice bob the_uri.
Definition the_pfrags : list PFrag := [mkPFrag (blit "pf1")].

(** The work order Bob makes for proxy P. *)
Definition order_for_p : WorkOrder.t :=
  {| WorkOrder.bob := bob;
     WorkOrder.kfrag_hrac := the_hrac;
     WorkOrder.pfrags := the_pfrags;
     WorkOrder.receipt_bytes := blit "wo:" ++ interface_dht_key ursula_p;
     WorkOrder.receipt_signature :=
       sign (blit "Bo") (blit "wo:" ++ interface_dht_key ursula_p);
     WorkOrder.ursula_id := Some (interface_dht_key ursula_p) |}.

(** Its payload with the signature replaced. *)
Definition forged_order_payload : bytes :=
  blit "??" ++ drop 2 (WorkOrder.payload order_for_p).

(** A group made by the constructor. *)
Definition plain_group : PolicyGroup.t :=
  PolicyGroup.__init__ the_uri alice bob None.

End Scenario.

(** ** Further concrete inputs *)
Module Cases.

(** The contract [craft_offer(5, 100)] returns. *)
Definition offer : Contract.t :=
  {| Contract.alice := Toy.alice; Contract.expiration := 5;
     Contract.deposit := Some 100%Z; Contract.ursula := None;
     Contract.kfrag := UNKNOWN_KFRAG;
     Contract.encrypted_challenge_pack := None;
     Contract.negotiation_result := None |}.

(** A network on which proxies P and Q accept in turn, and one on which
    there is no proxy at every other request and proxy Q declines at the
    rest. *)
Definition accepting : Policy.Discovery :=
  {| Policy.find_ursula := fun i _ =>
       Policy.Found (if Nat.even i then Toy.ursula_p else Toy.ursula_q)
         {| was_accepted := true |} |}.
Definition refusing : Policy.Discovery :=
  {| Policy.find_ursula := fun i _ =>
       if Nat.even i then Policy.NotEnoughQualifiedUrsulas
       else Policy.Found Toy.ursula_q {| was_accepted := false |} |}.

(** A policy of two fragments and the offer, before any request. *)
Definition opening : Policy.Negotiation :=
  {| Policy.policy := Scenario.policy_of [Scenario.kf1; Scenario.kf2];
     Policy.contract := offer;
     Policy.aliases := ∅;
     Policy.finds := 0 |}.

(** Collaborators that differ from the runnable ones in that encryption
    always fails. *)
Definition no_encryption : Collaborators :=
  {| signature_len := 2;
     pubkey_len := 2;
     kfrag_len := 3;
     keccak_digest := Toy.digest;
     ecdsa_sign := Toy.sign;
     signature_verify := Toy.verify;
     unknown_kfrag_bytes := [];
     PFrag_init := fun serialized => Ok (mkPFrag serialized);
     msgpack_dumps := Toy.dumps;
     msgpack_loads := Toy.loads;
     encrypt_for := fun _ _ _ => Raise (CollaboratorError "EncryptionFailed");
     verify_from := Toy.decrypt_and_verify;
     storage_set := fun _ _ => Ok tt |}.

(** The challenge pack of the complete policy, encrypted for Bob, and the
    policy that keeps it. *)
Definition the_pack : mp * bytes :=
  (MBytes (rev (Toy.dumps (MArray []))),
   Toy.sign (blit "Al") (Toy.dumps (MArray []))).
Definition policy_with_pack : Policy.t :=
  Policy.with_encrypted_challenge_pack Scenario.complete_policy the_pack.

(** Bob's order for proxy P as Ursula parses it. *)
Definition parsed_order_for_p : WorkOrder.t :=
  {| WorkOrder.bob := from_pubkey_sig_bytes (seal_bytes Toy.bob);
     WorkOrder.kfrag_hrac := Scenario.the_hrac;
     WorkOrder.pfrags := Scenario.the_pfrags;
     WorkOrder.receipt_bytes :=
       WorkOrder.receipt_bytes Scenario.order_for_p;
     WorkOrder.receipt_signature :=
       WorkOrder.receipt_signature Scenario.order_for_p;
     WorkOrder.ursula_id := None |}.

Definition other_pfrags : list PFrag :=
  [mkPFrag (blit "pf2"); mkPFrag (blit "pf3")].

(** A store with one list of one identifier, and a treasure map made from
    that list. *)
Definition one_list : gmap nat (list bytes) := {[ 0 := [blit "dht-O"] ]}.
Definition map_of_list : TreasureMap.obj := {| TreasureMap.ids_at := 0 |}.

(** A store with two lists of the same identifier, and a treasure map made
    from the second. *)
Definition two_lists : gmap nat (list bytes) :=
  <[ 1 := [blit "dht-O"] ]> one_list.
Definition map_of_other_list : TreasureMap.obj := {| TreasureMap.ids_at := 1 |}.

(** The order Bob makes for proxy Q. *)
Definition order_for_q : WorkOrder.t :=
  {| WorkOrder.bob := Toy.bob;
     WorkOrder.kfrag_hrac := Scenario.the_hrac;
     WorkOrder.pfrags := other_pfrags;
     WorkOrder.receipt_bytes := blit "wo:" ++ interface_dht_key Toy.ursula_q;
     WorkOrder.receipt_signature :=
       Toy.sign (blit "Bo") (blit "wo:" ++ interface_dht_key Toy.ursula_q);
     WorkOrder.ursula_id := Some (interface_dht_key Toy.ursula_q) |}.

End Cases.

(** * Properties *)

(** ** Identity binding *)

Section IdentityBinding.
Context `{Collaborators}.

(** The instance method agrees with the static one on a policy that has a
    Bob and a uri. *)
Lemma hrac_of_bound_policy (self : Policy.t) (bob : Character) (uri : bytes) :
  Policy.bob self = Some bob ->
  Policy.uri self = Some uri ->
  Policy.hrac self = Ok (Policy.hrac_for (Policy.alice self) bob uri).
Proof. intros Hbob Huri. unfold Policy.hrac. now rewrite Hbob, Huri. Qed.

(** C7. The HRAC is the digest of Alice's public key, Bob's public key and
    the resource uri, concatenated in that order; it is a function of these
    three byte strings alone, so that actors known by their public keys only
    recompute the same digest. *)
Theorem hrac_for_is_digest_of_keys_and_uri (alice bob : Character) (uri : bytes) :
  Policy.hrac_for alice bob uri
    = PolicyGroup.hash (seal_bytes alice ++ seal_bytes bob ++ uri)
  /\ Policy.hrac_for alice bob uri
    = Policy.hrac_for (from_pubkey_sig_bytes (seal_bytes alice))
        (from_pubkey_sig_bytes (seal_bytes bob)) uri.
Proof. split; reflexivity. Qed.

End IdentityBinding.

(** ** Work order equality *)

(** C10. Two work orders compare equal exactly when their receipt bytes and
    their receipt signatures are equal; the recipient, the HRAC, the
    ciphertext fragments and the proxy identifier play no part. *)
Theorem work_order_eq_is_receipt_eq (self other : WorkOrder.t) :
  WorkOrder.__eq__ self other = true
  <-> WorkOrder.receipt_bytes self = WorkOrder.receipt_bytes other
      /\ WorkOrder.receipt_signature self = WorkOrder.receipt_signature other.
Proof.
  unfold WorkOrder.__eq__. rewrite bool_decide_eq_true.
  split.
  - intros Heq. now inversion Heq.
  - intros [Hbytes Hsig]. now rewrite Hbytes, Hsig.
Qed.

(** Work orders that differ in everything but the receipt are equal. *)
Lemma work_order_eq_ignores_other_fields
    (bob1 bob2 : Character) (hrac1 hrac2 : bytes) (pfrags1 pfrags2 : list PFrag)
    (id1 id2 : option bytes) (receipt signature : bytes) :
  WorkOrder.__eq__
    (WorkOrder.mk bob1 hrac1 pfrags1 receipt signature id1)
    (WorkOrder.mk bob2 hrac2 pfrags2 receipt signature id2) = true.
Proof. unfold WorkOrder.__eq__. now apply bool_decide_eq_true. Qed.

(** ** Contract offers *)

(** What [craft_offer] builds: a contract with no proxy and the placeholder
    fragment, whose [expiration] is the [deposit] argument and whose
    [deposit] is the [expiration] argument. *)
Lemma craft_offer_contract (self : Policy.t) (deposit expiration : Z) :
  Policy.craft_offer self deposit expiration
  = Ok {| Contract.alice := Policy.alice self;
          Contract.expiration := deposit;
          Contract.deposit := Some expiration;
          Contract.ursula := None;
          Contract.kfrag := UNKNOWN_KFRAG;
          Contract.encrypted_challenge_pack := None;
          Contract.negotiation_result := None |}.
Proof. reflexivity. Qed.

(** C9. An offer crafted with deposit 5 and expiration 100 is a contract
    with no proxy and no fragment, but its expiration is 5 and its deposit
    is 100: the two arguments reach the constructor in the wrong order. *)
Theorem craft_offer_swaps_deposit_and_expiration :
  exists contract,
    Policy.craft_offer Scenario.complete_policy 5 100 = Ok contract
    /\ Contract.expiration contract = 5%Z
    /\ Contract.deposit contract = Some 100%Z
    /\ Contract.ursula contract = None
    /\ Contract.kfrag contract = UNKNOWN_KFRAG.
Proof.
  eexists. split; [apply craft_offer_contract|]. now cbn.
Qed.

(** ** The payload codec *)

Lemma split_fields_app (w : nat) (widths : list nat) (field rest : bytes) :
  length field = w ->
  split_fields (w :: widths) (field ++ rest)
  = ('(fields, remainder) ← split_fields widths rest;
     Ok (field :: fields, remainder)).
Proof.
  intros Hlen. cbn [split_fields].
  assert (Hge : (length (field ++ rest) <? w) = false).
  { apply Nat.ltb_ge. rewrite length_app. lia. }
  rewrite Hge, <- Hlen, drop_app_length, take_app_length. reflexivity.
Qed.

Lemma split_fields_two (w1 w2 : nat) (field1 field2 rest : bytes) :
  length field1 = w1 ->
  length field2 = w2 ->
  split_fields [w1; w2] (field1 ++ field2 ++ rest)
  = Ok ([field1; field2], rest).
Proof.
  intros H1 H2. rewrite split_fields_app by assumption.
  rewrite split_fields_app by assumption. reflexivity.
Qed.

(** Splitting yields as many fields as there are widths, each of its
    width, and loses no byte. *)
Lemma split_fields_spec (widths : list nat) (splittable : bytes)
    (fields : list bytes) (remainder : bytes) :
  split_fields widths splittable = Ok (fields, remainder) ->
  map length fields = widths /\ concat fields ++ remainder = splittable.
Proof.
  revert splittable fields remainder.
  induction widths as [|w widths IH]; intros splittable fields remainder.
  - cbn. intros [= <- <-]. now split.
  - cbn [split_fields].
    destruct (length splittable <? w) eqn:Hshort; [discriminate|].
    apply Nat.ltb_ge in Hshort.
    destruct (split_fields widths (drop w splittable)) as [[fs r]|e] eqn:Hrest;
      cbn; [|discriminate].
    intros [= <- <-].
    destruct (IH _ _ _ Hrest) as [Hlens Hcat].
    split.
    + cbn. rewrite Hlens, length_take. f_equal. lia.
    + cbn. rewrite <- app_assoc, Hcat. apply take_drop.
Qed.

(** A payload shorter than the fixed-width fields is malformed. *)
Lemma split_fields_short (widths : list nat) (splittable : bytes) :
  length splittable < sum_list widths ->
  split_fields widths splittable = Raise MalformedPayload.
Proof.
  revert splittable.
  induction widths as [|w widths IH]; intros splittable Hshort;
    cbn in Hshort; cbn [split_fields].
  - lia.
  - destruct (length splittable <? w) eqn:Hw; [reflexivity|].
    apply Nat.ltb_ge in Hw.
    rewrite IH; [reflexivity|]. rewrite length_drop. lia.
Qed.

(** ** Work orders on the wire *)

Section WorkOrders.
Context `{Collaborators}.

Lemma py_map_restores (pfrags : list PFrag) :
  pfrags_restorable pfrags ->
  py_map (fun p => p ← as_bytes p; PFrag_init p)
    (map MBytes (map pfrag_bytes pfrags)) = Ok pfrags.
Proof.
  induction 1 as [|p pfrags Hp _ IH]; [reflexivity|].
  cbn [map py_map]. rewrite IH. cbn. now rewrite Hp.
Qed.

Lemma load_pfrags_packed (pfrags : list PFrag) :
  pfrags_restorable pfrags ->
  round_trips (packed_pfrags_of pfrags) ->
  WorkOrder.load_pfrags (MBytes (msgpack_dumps (packed_pfrags_of pfrags)))
  = Ok pfrags.
Proof.
  intros Hrestore Hinner. unfold WorkOrder.load_pfrags. cbn.
  rewrite Hinner. cbn. now apply py_map_restores.
Qed.

(** Parsing the payload of a work order gives the order back, without its
    proxy identifier and with a Bob known by his public key, when the
    signature verifies; it raises when it does not. *)
Lemma from_rest_payload_payload (self : WorkOrder.t) (kfrag_hrac : bytes) :
  length (WorkOrder.receipt_signature self) = signature_len ->
  length (seal_bytes (WorkOrder.bob self)) = pubkey_len ->
  pfrags_restorable (WorkOrder.pfrags self) ->
  round_trips (packed_pfrags_of (WorkOrder.pfrags self)) ->
  round_trips
    (packed_receipt_of (WorkOrder.receipt_bytes self) (WorkOrder.pfrags self)) ->
  WorkOrder.from_rest_payload kfrag_hrac (WorkOrder.payload self)
  = if signature_verify (WorkOrder.receipt_signature self)
         (WorkOrder.receipt_bytes self) (seal_bytes (WorkOrder.bob self))
    then Ok {| WorkOrder.bob :=
                 from_pubkey_sig_bytes (seal_bytes (WorkOrder.bob self));
               WorkOrder.kfrag_hrac := kfrag_hrac;
               WorkOrder.pfrags := WorkOrder.pfrags self;
               WorkOrder.receipt_bytes := WorkOrder.receipt_bytes self;
               WorkOrder.receipt_signature := WorkOrder.receipt_signature self;
               WorkOrder.ursula_id := None |}
    else Raise WorkOrder.UnauthenticatedOrder.
Proof.
  intros Hsig Hkey Hrestore Hinner Houter.
  unfold WorkOrder.from_rest_payload, WorkOrder.payload,
    split_msgpack_remainder.
  rewrite split_fields_two by assumption. cbn -[WorkOrder.load_pfrags].
  fold (packed_pfrags_of (WorkOrder.pfrags self)).
  fold (packed_receipt_of (WorkOrder.receipt_bytes self) (WorkOrder.pfrags self)).
  rewrite Houter. cbn -[WorkOrder.load_pfrags].
  rewrite (load_pfrags_packed _ Hrestore Hinner). cbn.
  now destruct (signature_verify _ _ _).
Qed.

(** What [constructed_by_bob] returns, when Bob can sign. *)
Lemma constructed_by_bob_inv (kfrag_hrac : bytes) (pfrags : list PFrag)
    (ursula_dht_key : bytes) (bob : Character) (order : WorkOrder.t) :
  WorkOrder.constructed_by_bob kfrag_hrac pfrags ursula_dht_key bob = Ok order ->
  exists key,
    signing_key bob = Some key
    /\ order = {| WorkOrder.bob := bob;
                  WorkOrder.kfrag_hrac := kfrag_hrac;
                  WorkOrder.pfrags := pfrags;
                  WorkOrder.receipt_bytes := blit "wo:" ++ ursula_dht_key;
                  WorkOrder.receipt_signature :=
                    ecdsa_sign key (blit "wo:" ++ ursula_dht_key);
                  WorkOrder.ursula_id := Some ursula_dht_key |}.
Proof.
  unfold WorkOrder.constructed_by_bob, seal_call.
  destruct (signing_key bob) as [key|]; cbn; [|discriminate].
  intros [= <-]. now exists key.
Qed.

(** The parse of the payload of an order Bob constructed. *)
Lemma from_rest_payload_constructed (kfrag_hrac kfrag_hrac' : bytes)
    (pfrags : list PFrag) (ursula_dht_key : bytes) (bob : Character)
    (order : WorkOrder.t) :
  well_keyed bob ->
  pfrags_restorable pfrags ->
  round_trips (packed_pfrags_of pfrags) ->
  round_trips (packed_receipt_of (blit "wo:" ++ ursula_dht_key) pfrags) ->
  WorkOrder.constructed_by_bob kfrag_hrac pfrags ursula_dht_key bob = Ok order ->
  WorkOrder.from_rest_payload kfrag_hrac' (WorkOrder.payload order)
  = Ok {| WorkOrder.bob := from_pubkey_sig_bytes (seal_bytes bob);
          WorkOrder.kfrag_hrac := kfrag_hrac';
          WorkOrder.pfrags := pfrags;
          WorkOrder.receipt_bytes := blit "wo:" ++ ursula_dht_key;
          WorkOrder.receipt_signature := WorkOrder.receipt_signature order;
          WorkOrder.ursula_id := None |}.
Proof.
  intros [Hkey Hsigns] Hrestore Hinner Houter Hmade.
  destruct (constructed_by_bob_inv _ _ _ _ _ Hmade) as (key & Hsk & ->).
  destruct (Hsigns key (blit "wo:" ++ ursula_dht_key) Hsk) as [Hlen Hverif].
  rewrite from_rest_payload_payload by assumption.
  cbn [WorkOrder.receipt_signature WorkOrder.receipt_bytes WorkOrder.bob
       WorkOrder.pfrags].
  now rewrite Hverif.
Qed.

(** C4. Parsing a work order checks the signature, which leads the payload,
    over the receipt bytes against the public key that follows it.  An order
    is returned only when that check passes; when the payload decodes and
    the check fails, the parse raises
    [ValueError("This doesn't appear to be from Bob.")] and returns no
    order. *)
Theorem from_rest_payload_rejects_unverified (kfrag_hrac rest_payload : bytes) :
  (forall order,
     WorkOrder.from_rest_payload kfrag_hrac rest_payload = Ok order ->
     exists remainder packed_pfrags,
       split_msgpack_remainder [signature_len; pubkey_len] rest_payload
       = Ok ([WorkOrder.receipt_signature order;
              seal_bytes (WorkOrder.bob order)], remainder)
       /\ unpack_pair remainder
          = Ok (MBytes (WorkOrder.receipt_bytes order), packed_pfrags)
       /\ signature_verify (WorkOrder.receipt_signature order)
            (WorkOrder.receipt_bytes order)
            (seal_bytes (WorkOrder.bob order)) = true)
  /\ (forall signature bob_pubkey_sig remainder receipt_bytes packed_pfrags
        pfrags,
        split_msgpack_remainder [signature_len; pubkey_len] rest_payload
        = Ok ([signature; bob_pubkey_sig], remainder) ->
        unpack_pair remainder = Ok (MBytes receipt_bytes, packed_pfrags) ->
        WorkOrder.load_pfrags packed_pfrags = Ok pfrags ->
        signature_verify signature receipt_bytes bob_pubkey_sig = false ->
        WorkOrder.from_rest_payload kfrag_hrac rest_payload
        = Raise WorkOrder.UnauthenticatedOrder).
Proof.
  split.
  - intros order. unfold WorkOrder.from_rest_payload.
    destruct (split_msgpack_remainder _ rest_payload)
      as [[fields remainder]|e]; cbn; [|discriminate].
    destruct fields as [|signature [|bob_pubkey_sig [|? ?]]]; try discriminate.
    destruct (unpack_pair remainder) as [[receipt packed]|e] eqn:Hpair;
      cbn -[WorkOrder.load_pfrags]; [|discriminate].
    destruct (WorkOrder.load_pfrags packed) as [pfrags|e]; cbn; [|discriminate].
    destruct receipt as [| |receipt|]; cbn; try discriminate.
    destruct (signature_verify signature receipt bob_pubkey_sig) eqn:Hverif;
      cbn; [|discriminate].
    intros [= <-]. cbn. now exists remainder, packed.
  - intros signature bob_pubkey_sig remainder receipt_bytes packed_pfrags
      pfrags Hsplit Hpair Hpfrags Hverif.
    unfold WorkOrder.from_rest_payload.
    rewrite Hsplit. cbn -[WorkOrder.load_pfrags unpack_pair].
    rewrite Hpair. cbn -[WorkOrder.load_pfrags]. rewrite Hpfrags. cbn.
    now rewrite Hverif.
Qed.

(** C8. The payload of a work order Bob constructed is the signature, then
    Bob's public key, then the msgpack of the receipt bytes and the packed
    fragment list; parsing it gives a work order with the same receipt
    bytes, receipt signature, recipient public key and ciphertext fragment
    bytes, provided Bob's key and signatures have the fixed widths and
    verify, and msgpack and the fragment constructor decode what was
    encoded. *)
Theorem work_order_payload_round_trip (kfrag_hrac kfrag_hrac' : bytes)
    (pfrags : list PFrag) (ursula_dht_key : bytes) (bob : Character)
    (order : WorkOrder.t) :
  well_keyed bob ->
  pfrags_restorable pfrags ->
  round_trips (packed_pfrags_of pfrags) ->
  round_trips (packed_receipt_of (blit "wo:" ++ ursula_dht_key) pfrags) ->
  WorkOrder.constructed_by_bob kfrag_hrac pfrags ursula_dht_key bob = Ok order ->
  exists parsed,
    WorkOrder.from_rest_payload kfrag_hrac' (WorkOrder.payload order) = Ok parsed
    /\ WorkOrder.receipt_bytes parsed = WorkOrder.receipt_bytes order
    /\ WorkOrder.receipt_signature parsed = WorkOrder.receipt_signature order
    /\ seal_bytes (WorkOrder.bob parsed) = seal_bytes (WorkOrder.bob order)
    /\ map pfrag_bytes (WorkOrder.pfrags parsed)
       = map pfrag_bytes (WorkOrder.pfrags order)
    /\ WorkOrder.kfrag_hrac parsed = kfrag_hrac'
    /\ WorkOrder.payload order
       = WorkOrder.receipt_signature order ++ seal_bytes bob
           ++ msgpack_dumps
                (packed_receipt_of (WorkOrder.receipt_bytes order) pfrags).
Proof.
  intros Hbob Hrestore Hinner Houter Hmade.
  eexists. split.
  - eapply from_rest_payload_constructed; eassumption.
  - destruct (constructed_by_bob_inv _ _ _ _ _ Hmade) as (key & _ & ->).
    now cbn.
Qed.

(** C5 (amended). The parse takes the HRAC and the payload and nothing of
    the proxy that runs it: an order Bob constructed for the proxy with
    discovery key [ursula_dht_key] is accepted whoever parses it, also a
    proxy [q] with another key.  The parsed order carries the receipt
    ["wo:" + ursula_dht_key] and no proxy identifier. *)
Theorem work_order_accepted_by_any_proxy (q : Character)
    (kfrag_hrac : bytes) (pfrags : list PFrag) (ursula_dht_key : bytes)
    (bob : Character) (order : WorkOrder.t) :
  interface_dht_key q <> ursula_dht_key ->
  well_keyed bob ->
  pfrags_restorable pfrags ->
  round_trips (packed_pfrags_of pfrags) ->
  round_trips (packed_receipt_of (blit "wo:" ++ ursula_dht_key) pfrags) ->
  WorkOrder.constructed_by_bob kfrag_hrac pfrags ursula_dht_key bob = Ok order ->
  exists parsed,
    WorkOrder.from_rest_payload kfrag_hrac (WorkOrder.payload order) = Ok parsed
    /\ WorkOrder.receipt_bytes parsed = blit "wo:" ++ ursula_dht_key
    /\ WorkOrder.ursula_id parsed = None.
Proof.
  intros _ Hbob Hrestore Hinner Houter Hmade.
  eexists. split.
  - eapply from_rest_payload_constructed; eassumption.
  - now cbn.
Qed.

End WorkOrders.

(** ** Contract reconstruction at the proxy *)

Section ContractAtProxy.
Context `{Collaborators}.

(** Once the payload and the cleartext split, [from_ursula] ends in the
    constructor call, whatever the verification flag was. *)
Lemma from_ursula_outcome (group_payload : bytes) (ursula : Character)
    (alice_pubkey_sig : bytes) (encrypted : mp) (verified : bool)
    (cleartext alices_signature policy_payload kfrag challenge_pack : bytes) :
  let alice := from_pubkey_sig_bytes alice_pubkey_sig in
  split_msgpack_remainder [pubkey_len] group_payload
  = Ok ([alice_pubkey_sig], encrypted) ->
  verify_from (learn_about_actor ursula alice) alice encrypted
  = Ok (verified, cleartext) ->
  split_return_remainder [signature_len] cleartext
  = Ok ([alices_signature], policy_payload) ->
  split_return_remainder [kfrag_len] policy_payload
  = Ok ([kfrag], challenge_pack) ->
  Contract.from_ursula group_payload ursula
  = (Raise Contract.missing_expiration, learn_about_actor ursula alice).
Proof.
  intros alice Hgroup Hverify Hsig Hkfrag.
  unfold Contract.from_ursula, mbind, M_bind, lift, get, put.
  rewrite Hgroup. fold alice. rewrite Hverify.
  destruct verified; cbn [negb]; unfold mret, M_ret;
    rewrite Hsig, Hkfrag; reflexivity.
Qed.

(** X1. No call of [from_ursula] returns a contract. *)
Lemma from_ursula_never_returns (group_payload : bytes) (ursula : Character)
    (contract : Contract.t) :
  (Contract.from_ursula group_payload ursula).1 <> Ok contract.
Proof.
  unfold Contract.from_ursula, mbind, M_bind, lift, get, put, mret, M_ret.
  destruct (split_msgpack_remainder _ group_payload) as [[fields enc]|e];
    [|discriminate].
  destruct fields as [|pk [|? ?]]; try discriminate.
  destruct (verify_from _ _ _) as [[verified cleartext]|e]; [|discriminate].
  destruct verified; cbn [negb];
    (destruct (split_return_remainder _ cleartext) as [[fields pp]|e];
       [|discriminate];
     destruct fields as [|sig [|? ?]]; try discriminate;
     destruct (split_return_remainder _ pp) as [[fields pack]|e];
       [|discriminate];
     destruct fields as [|kf [|? ?]]; discriminate).
Qed.

End ContractAtProxy.

(** ** Enactment *)

Section Enactment.
Context `{Collaborators}.

(** One turn of the loop of [enact], step by step.  No turn completes: the
    last statement raises. *)
Lemma enact_body_outcome (networky_stuff : NetworkClient) (kfrag : KFragV)
    (self : Policy.t) (w : World) :
  Policy.enact_body networky_stuff kfrag (self, w)
  = match Policy.active_contract self kfrag with
    | Raise e => (Raise e, (self, w))
    | Ok contract =>
        match Contract.encrypt_payload_for_ursula contract with
        | Raise e => (Raise e, (self, w))
        | Ok policy_payload =>
            match Policy.hrac self with
            | Raise e => (Raise e, (self, w))
            | Ok hrac =>
                let full_payload :=
                  seal_bytes (Policy.alice self)
                    ++ msgpack_dumps policy_payload in
                let w' :=
                  record_transmission w (Contract.ursula contract) hrac
                    full_payload in
                match enact_policy networky_stuff (Contract.ursula contract)
                        hrac full_payload with
                | Raise e => (Raise e, (self, w'))
                | Ok _ => (Raise (AttributeError "list" "add_ursula"), (self, w'))
                end
            end
        end
    end.
Proof.
  unfold Policy.enact_body, mbind, M_bind, lift, Policy.get_self,
    Policy.in_world, transmit, record_transmission. cbn [fst snd].
  destruct (Policy.active_contract self kfrag) as [contract|e]; [|reflexivity].
  destruct (Contract.encrypt_payload_for_ursula contract) as [pp|e];
    [|reflexivity].
  destruct (Policy.hrac self) as [hrac|e]; [|reflexivity].
  destruct (enact_policy networky_stuff _ _ _) as [response|e]; reflexivity.
Qed.

(** [enact] on a policy with a first fragment is the first turn of its
    loop. *)
Lemma enact_first_turn (networky_stuff : NetworkClient) (self : Policy.t)
    (w : World) (kfrag : KFragV) (rest : list KFragV) :
  Policy.kfrags self = kfrag :: rest ->
  Policy.enact networky_stuff (self, w)
  = Policy.enact_body networky_stuff kfrag (self, w).
Proof.
  intros Hkfrags.
  unfold Policy.enact, mbind at 1, M_bind, Policy.get_self. cbn [fst].
  rewrite Hkfrags. cbn [py_for]. unfold mbind, M_bind.
  rewrite enact_body_outcome.
  destruct (Policy.active_contract self kfrag) as [contract|e]; [|reflexivity].
  destruct (Contract.encrypt_payload_for_ursula contract) as [pp|e];
    [|reflexivity].
  destruct (Policy.hrac self) as [hrac|e]; [|reflexivity].
  cbn zeta.
  destruct (enact_policy networky_stuff _ _ _) as [response|e]; reflexivity.
Qed.

(** X4. [enact] completes on the policy without fragments only. *)
Lemma enact_returns_iff_no_fragment (networky_stuff : NetworkClient)
    (self : Policy.t) (w : World) :
  (Policy.enact networky_stuff (self, w)).1 = Ok tt
  <-> Policy.kfrags self = [].
Proof.
  destruct (Policy.kfrags self) as [|kfrag rest] eqn:Hkfrags.
  - split; [reflexivity|]. intros _.
    unfold Policy.enact, mbind, M_bind, Policy.get_self. cbn [fst].
    now rewrite Hkfrags.
  - split; [|discriminate]. intros Hret. exfalso. revert Hret.
    rewrite (enact_first_turn _ _ _ _ _ Hkfrags), enact_body_outcome.
    destruct (Policy.active_contract self kfrag) as [contract|e];
      [|discriminate].
    destruct (Contract.encrypt_payload_for_ursula contract) as [pp|e];
      [|discriminate].
    destruct (Policy.hrac self) as [hrac|e]; [|discriminate].
    cbn zeta.
    destruct (enact_policy networky_stuff _ _ _) as [response|e]; discriminate.
Qed.

(** C2 (amended). [enact] makes no completeness check before it starts and
    has no error of its own.  When the first fragment has no active contract
    it raises [KeyError] for that one fragment, before anything is sent and
    with the policy as it was.  When the transmission of the first fragment
    raises, [enact] ends with that same exception, the transmission on
    record and the policy, its treasure map included, as it was. *)
Theorem enact_fails_at_first_fragment (networky_stuff : NetworkClient)
    (self : Policy.t) (w : World) (kfrag : KFragV) (rest : list KFragV) :
  Policy.kfrags self = kfrag :: rest ->
  (Policy._active_contracts self !! kfrag = None ->
   Policy.enact networky_stuff (self, w) = (Raise (KeyError kfrag), (self, w)))
  /\ (forall contract policy_payload hrac e,
        Policy._active_contracts self !! kfrag = Some contract ->
        Contract.encrypt_payload_for_ursula contract = Ok policy_payload ->
        Policy.hrac self = Ok hrac ->
        enact_policy networky_stuff (Contract.ursula contract) hrac
          (seal_bytes (Policy.alice self) ++ msgpack_dumps policy_payload)
        = Raise e ->
        Policy.enact networky_stuff (self, w)
        = (Raise e,
           (self,
            record_transmission w (Contract.ursula contract) hrac
              (seal_bytes (Policy.alice self)
                 ++ msgpack_dumps policy_payload)))).
Proof.
  intros Hkfrags.
  rewrite (enact_first_turn _ _ _ _ _ Hkfrags), enact_body_outcome.
  unfold Policy.active_contract.
  split.
  - intros Hnone. now rewrite Hnone.
  - intros contract policy_payload hrac e Hsome Hencrypt Hhrac Hsend.
    rewrite Hsome, Hencrypt, Hhrac. cbn zeta. now rewrite Hsend.
Qed.

(** When the first fragment has its contract and its transmission is
    acknowledged, [enact] raises [AttributeError] on the statement that was
    to extend the treasure map, and the treasure map is as it was. *)
Lemma enact_raises_after_transmission (networky_stuff : NetworkClient)
    (self : Policy.t) (w : World) (kfrag : KFragV) (rest : list KFragV)
    (contract : Contract.t) (policy_payload : mp) (hrac : bytes)
    (response : mp) :
  Policy.kfrags self = kfrag :: rest ->
  Policy._active_contracts self !! kfrag = Some contract ->
  Contract.encrypt_payload_for_ursula contract = Ok policy_payload ->
  Policy.hrac self = Ok hrac ->
  enact_policy networky_stuff (Contract.ursula contract) hrac
    (seal_bytes (Policy.alice self) ++ msgpack_dumps policy_payload)
  = Ok response ->
  Policy.enact networky_stuff (self, w)
  = (Raise (AttributeError "list" "add_ursula"),
     (self,
      record_transmission w (Contract.ursula contract) hrac
        (seal_bytes (Policy.alice self) ++ msgpack_dumps policy_payload))).
Proof.
  intros Hkfrags Hsome Hencrypt Hhrac Hsend.
  rewrite (enact_first_turn _ _ _ _ _ Hkfrags), enact_body_outcome.
  unfold Policy.active_contract.
  rewrite Hsome, Hencrypt, Hhrac. cbn zeta. now rewrite Hsend.
Qed.

End Enactment.

(** ** Publication of the treasure map *)

Section Publication.
Context `{Collaborators}.

(** A group made by the constructor cannot be published: it has no
    [hrac]. *)
Lemma publish_plain_group_raises (uri : bytes) (alice bob : Character)
    (policies : option (list Policy.t)) (w : World) :
  exists e,
    PolicyGroup.publish_treasure_map
      (PolicyGroup.__init__ uri alice bob policies) w = (Raise e, w).
Proof.
  unfold PolicyGroup.publish_treasure_map, mbind, M_bind, lift.
  destruct (encrypt_for _ _ _) as [[enc sig]|e]; eauto.
Qed.

End Publication.

(** * Runs on concrete inputs *)

Section Runs.
#[local] Existing Instance Toy.collaborators.

(** The runnable actors are well keyed. *)
Lemma toy_actor_well_keyed (key interface : string) :
  length (blit key) = 2 -> well_keyed (Toy.actor key interface).
Proof.
  intros Hlen. split; [exact Hlen|].
  intros k message [= <-]. split; [reflexivity|].
  cbn. unfold Toy.verify, Toy.sign. now apply bool_decide_eq_true.
Qed.

Lemma toy_pfrags_restorable (pfrags : list PFrag) : pfrags_restorable pfrags.
Proof.
  induction pfrags as [|[serialized] pfrags IH]; constructor; [reflexivity|].
  exact IH.
Qed.

(** *** Work orders *)

(** Witness of C4: the genuine payload of Bob's order parses to an order
    whose signature verifies, and the payload with another signature is
    rejected. *)
Lemma from_rest_payload_rejects_unverified_witness :
  (exists remainder packed_pfrags,
     split_msgpack_remainder [signature_len; pubkey_len]
       (WorkOrder.payload Scenario.order_for_p)
     = Ok ([WorkOrder.receipt_signature Scenario.order_for_p;
            seal_bytes Toy.bob], remainder)
     /\ unpack_pair remainder
        = Ok (MBytes (WorkOrder.receipt_bytes Scenario.order_for_p),
              packed_pfrags)
     /\ signature_verify (WorkOrder.receipt_signature Scenario.order_for_p)
          (WorkOrder.receipt_bytes Scenario.order_for_p) (seal_bytes Toy.bob)
        = true)
  /\ WorkOrder.from_rest_payload Scenario.the_hrac Scenario.forged_order_payload
     = Raise WorkOrder.UnauthenticatedOrder.
Proof.
  split.
  - apply (proj1 (from_rest_payload_rejects_unverified Scenario.the_hrac
                    (WorkOrder.payload Scenario.order_for_p))
             {| WorkOrder.bob := from_pubkey_sig_bytes (seal_bytes Toy.bob);
                WorkOrder.kfrag_hrac := Scenario.the_hrac;
                WorkOrder.pfrags := Scenario.the_pfrags;
                WorkOrder.receipt_bytes :=
                  WorkOrder.receipt_bytes Scenario.order_for_p;
                WorkOrder.receipt_signature :=
                  WorkOrder.receipt_signature Scenario.order_for_p;
                WorkOrder.ursula_id := None |}).
    vm_compute. reflexivity.
  - eapply (proj2 (from_rest_payload_rejects_unverified Scenario.the_hrac
                     Scenario.forged_order_payload));
      vm_compute; reflexivity.
Defined.

(** Witness of C8: Bob's order for proxy P survives the wire. *)
Lemma work_order_payload_round_trip_witness :
  exists parsed,
    WorkOrder.from_rest_payload (blit "hrac")
      (WorkOrder.payload Scenario.order_for_p) = Ok parsed
    /\ WorkOrder.receipt_bytes parsed
       = WorkOrder.receipt_bytes Scenario.order_for_p
    /\ WorkOrder.receipt_signature parsed
       = WorkOrder.receipt_signature Scenario.order_for_p
    /\ seal_bytes (WorkOrder.bob parsed)
       = seal_bytes (WorkOrder.bob Scenario.order_for_p)
    /\ map pfrag_bytes (WorkOrder.pfrags parsed)
       = map pfrag_bytes (WorkOrder.pfrags Scenario.order_for_p)
    /\ WorkOrder.kfrag_hrac parsed = blit "hrac"
    /\ WorkOrder.payload Scenario.order_for_p
       = WorkOrder.receipt_signature Scenario.order_for_p
           ++ seal_bytes Toy.bob
           ++ msgpack_dumps
                (packed_receipt_of
                   (WorkOrder.receipt_bytes Scenario.order_for_p)
                   Scenario.the_pfrags).
Proof.
  apply (work_order_payload_round_trip Scenario.the_hrac (blit "hrac")
           Scenario.the_pfrags (interface_dht_key Toy.ursula_p) Toy.bob
           Scenario.order_for_p).
  - apply toy_actor_well_keyed. reflexivity.
  - apply toy_pfrags_restorable.
  - vm_compute. reflexivity.
  - vm_compute. reflexivity.
  - vm_compute. reflexivity.
Defined.

(** Counterexample to C5: Bob signs ["wo:" + P's key]; proxy Q has another
    key; the parse, which is the same whoever runs it, accepts the order. *)
Lemma work_order_replay_counterexample :
  interface_dht_key Toy.ursula_q <> interface_dht_key Toy.ursula_p
  /\ WorkOrder.constructed_by_bob Scenario.the_hrac Scenario.the_pfrags
       (interface_dht_key Toy.ursula_p) Toy.bob = Ok Scenario.order_for_p
  /\ WorkOrder.from_rest_payload Scenario.the_hrac
       (WorkOrder.payload Scenario.order_for_p)
     = Ok {| WorkOrder.bob := from_pubkey_sig_bytes (seal_bytes Toy.bob);
             WorkOrder.kfrag_hrac := Scenario.the_hrac;
             WorkOrder.pfrags := Scenario.the_pfrags;
             WorkOrder.receipt_bytes :=
               blit "wo:" ++ interface_dht_key Toy.ursula_p;
             WorkOrder.receipt_signature :=
               WorkOrder.receipt_signature Scenario.order_for_p;
             WorkOrder.ursula_id := None |}
  /\ WorkOrder.from_rest_payload Scenario.the_hrac
       (WorkOrder.payload Scenario.order_for_p)
     <> Raise WorkOrder.UnauthenticatedOrder.
Proof.
  split; [vm_compute; discriminate|].
  split; [vm_compute; reflexivity|].
  split; [vm_compute; reflexivity|].
  vm_compute. discriminate.
Qed.

(** Witness of C5 (amended): the same order, with proxy Q as the parser. *)
Lemma work_order_accepted_by_any_proxy_witness :
  exists parsed,
    WorkOrder.from_rest_payload Scenario.the_hrac
      (WorkOrder.payload Scenario.order_for_p) = Ok parsed
    /\ WorkOrder.receipt_bytes parsed
       = blit "wo:" ++ interface_dht_key Toy.ursula_p
    /\ WorkOrder.ursula_id parsed = None.
Proof.
  apply (work_order_accepted_by_any_proxy Toy.ursula_q Scenario.the_hrac
           Scenario.the_pfrags (interface_dht_key Toy.ursula_p) Toy.bob
           Scenario.order_for_p).
  - vm_compute. discriminate.
  - apply toy_actor_well_keyed. reflexivity.
  - apply toy_pfrags_restorable.
  - vm_compute. reflexivity.
  - vm_compute. reflexivity.
  - vm_compute. reflexivity.
Defined.

(** *** Contract reconstruction *)

(** C1. A contract offer whose inner payload is not signed by Alice: the
    verification flag is [False], and [from_ursula] goes on as it does for
    the properly signed offer.  It raises no error for the failed
    verification; it ends, for both offers, in the [TypeError] of the
    constructor call that lacks [expiration]. *)
Theorem from_ursula_ignores_failed_verification :
  let alice := from_pubkey_sig_bytes (seal_bytes Toy.alice) in
  let ursula := learn_about_actor Toy.ursula_p alice in
  verify_from ursula alice (MBytes (rev Scenario.forged_cleartext))
  = Ok (false, Scenario.forged_cleartext)
  /\ verify_from ursula alice (MBytes (rev Scenario.signed_cleartext))
     = Ok (true, Scenario.signed_cleartext)
  /\ Contract.from_ursula Scenario.forged_group_payload Toy.ursula_p
     = (Raise Contract.missing_expiration, ursula)
  /\ Contract.from_ursula Scenario.signed_group_payload Toy.ursula_p
     = Contract.from_ursula Scenario.forged_group_payload Toy.ursula_p.
Proof.
  cbv zeta.
  split; [vm_compute; reflexivity|].
  split; [vm_compute; reflexivity|].
  split; [|vm_compute; reflexivity].
  eapply (from_ursula_outcome Scenario.forged_group_payload Toy.ursula_p
            (seal_bytes Toy.alice) _ false Scenario.forged_cleartext);
    vm_compute; reflexivity.
Qed.

(** *** Enactment *)

(** C3. A policy with one fragment, its contract active, on a network that
    acknowledges every transmission: [enact] sends the fragment and then
    raises [AttributeError]; it does not complete, and the treasure map of
    the policy has no entry where one per fragment was due. *)
Theorem enact_complete_policy_raises :
  exists w,
    Policy.enact Toy.reliable (Scenario.complete_policy, Toy.quiet)
    = (Raise (AttributeError "list" "add_ursula"),
       (Scenario.complete_policy, w))
    /\ length (transmissions w) = 1
    /\ Policy.n Scenario.complete_policy = 1
    /\ Policy.treasure_map Scenario.complete_policy = [].
Proof.
  eexists. split; [|split; [|split]].
  - eapply (enact_raises_after_transmission Toy.reliable
              Scenario.complete_policy Toy.quiet Scenario.kf1 []);
      vm_compute; reflexivity.
  - reflexivity.
  - reflexivity.
  - reflexivity.
Qed.

(** Counterexample to C2.  With two fragments and no contract for either,
    [enact] raises [KeyError] for the first fragment and names no other;
    and when the one transmission of a complete policy fails, [enact] ends
    with the exception of the network client. *)
Lemma enact_incomplete_policy_counterexample :
  Policy.kfrags Scenario.unresolved_policy = [Scenario.kf1; Scenario.kf2]
  /\ Policy._active_contracts Scenario.unresolved_policy !! Scenario.kf1 = None
  /\ Policy._active_contracts Scenario.unresolved_policy !! Scenario.kf2 = None
  /\ Policy.enact Toy.reliable (Scenario.unresolved_policy, Toy.quiet)
     = (Raise (KeyError Scenario.kf1), (Scenario.unresolved_policy, Toy.quiet))
  /\ (Policy.enact Toy.unreachable (Scenario.complete_policy, Toy.quiet)).1
     = Raise (CollaboratorError "PeerUnreachable").
Proof. repeat split; vm_compute; reflexivity. Qed.

(** Witness of C2 (amended): the policy without contracts, and the complete
    policy on a network where no transmission arrives. *)
Lemma enact_fails_at_first_fragment_witness :
  Policy.enact Toy.reliable (Scenario.unresolved_policy, Toy.quiet)
  = (Raise (KeyError Scenario.kf1), (Scenario.unresolved_policy, Toy.quiet))
  /\ Policy.enact Toy.unreachable (Scenario.complete_policy, Toy.quiet)
     = (Raise (CollaboratorError "PeerUnreachable"),
        (Scenario.complete_policy,
         record_transmission Toy.quiet (Some Toy.ursula_p) Scenario.the_hrac
           (seal_bytes Toy.alice
              ++ msgpack_dumps
                   (MBytes (rev (blit "kf1"
                                   ++ blit "This might be a ChallengePack")))))).
Proof.
  split.
  - apply (proj1 (enact_fails_at_first_fragment Toy.reliable
                    Scenario.unresolved_policy Toy.quiet Scenario.kf1
                    [Scenario.kf2] eq_refl)).
    vm_compute. reflexivity.
  - apply (proj2 (enact_fails_at_first_fragment Toy.unreachable
                    Scenario.complete_policy Toy.quiet Scenario.kf1 []
                    eq_refl)
             (Scenario.active_contract_with Scenario.kf1 Toy.ursula_p)).
    + vm_compute. reflexivity.
    + vm_compute. reflexivity.
    + vm_compute. reflexivity.
    + reflexivity.
Defined.

(** *** Publication *)

(** C6. A group as [PolicyGroup(uri, alice, bob)] makes it, published on a
    network that would acknowledge every [set]: the group has no [hrac],
    so the key of the treasure map cannot be computed and
    [publish_treasure_map] raises [AttributeError] before it reaches the
    [set]; no call is made on the storage network, under any key. *)
Theorem publish_treasure_map_of_group_raises :
  PolicyGroup.treasure_map_dht_key Scenario.plain_group
  = Raise (AttributeError "PolicyGroup" "hrac")
  /\ PolicyGroup.publish_treasure_map Scenario.plain_group Toy.quiet
     = (Raise (AttributeError "PolicyGroup" "hrac"), Toy.quiet)
  /\ dht_sets
       (PolicyGroup.publish_treasure_map Scenario.plain_group Toy.quiet).2
     = [].
Proof. repeat split; vm_compute; reflexivity. Qed.

End Runs.

(** * Negotiation *)

Section FindingUrsulas.

Lemma with_contracts_same (self : Policy.t) :
  Policy.with_contracts self (Policy._active_contracts self) = self.
Proof. now destruct self. Qed.

Lemma py_for_cons {S A} (x : A) (rest : list A) (body : A -> M S unit) (s : S) :
  py_for (x :: rest) body s
  = match body x s with
    | (Ok _, s') => py_for rest body s'
    | (Raise e, s') => (Raise e, s')
    end.
Proof. reflexivity. Qed.

(** A contract held under [held] overrides an earlier state of it held
    under fewer fragments. *)
Lemma rebind_absorbs (later earlier : Contract.t) (held held' : gset KFragV)
    (contracts : gmap KFragV Contract.t) :
  held' ⊆ held ->
  gset_to_gmap later held ∪ (gset_to_gmap earlier held' ∪ contracts)
  = gset_to_gmap later held ∪ contracts.
Proof.
  intros Hsub. apply map_eq. intros k.
  rewrite !lookup_union, !lookup_gset_to_gmap.
  destruct (decide (k ∈ held)) as [Hin|Hout].
  - rewrite option_guard_True by assumption. cbn.
    now rewrite !union_Some_l.
  - rewrite option_guard_False by assumption.
    rewrite option_guard_False by set_solver.
    now rewrite !(left_id_L None _).
Qed.

(** What one turn changes: nothing of the policy but its contracts, and of
    these only what is held under the fragments of the one contract. *)
Lemma find_turn_frame (networky_stuff : Policy.Discovery) (kfrag : KFragV)
    (s : Policy.Negotiation) :
  let s' := (Policy.find_turn networky_stuff kfrag s).2 in
  Policy.policy s'
  = Policy.with_contracts (Policy.policy s)
      (Policy._active_contracts (Policy.policy s'))
  /\ Policy.aliases s ⊆ Policy.aliases s'
  /\ Policy.aliases s' ⊆ Policy.aliases s ∪ {[kfrag]}
  /\ (forall k, k ∉ Policy.aliases s' ->
        Policy._active_contracts (Policy.policy s') !! k
        = Policy._active_contracts (Policy.policy s) !! k)
  /\ dom (Policy._active_contracts (Policy.policy s))
     ⊆ dom (Policy._active_contracts (Policy.policy s')).
Proof.
  unfold Policy.find_turn.
  destruct (Policy.find_ursula networky_stuff _ _) as [ursula result| |e];
    [destruct (was_accepted result)|..]; cbn;
    try (rewrite with_contracts_same; repeat split; set_solver).
  repeat split; try set_solver.
  all: try (intros k Hout; rewrite lookup_union_r; [reflexivity|];
            apply lookup_gset_to_gmap_None; exact Hout).
  all: rewrite dom_union_L; set_solver.
Qed.

Lemma find_run_frame (networky_stuff : Policy.Discovery) (l : list KFragV)
    (s : Policy.Negotiation) :
  let s' := (py_for l (Policy.find_turn networky_stuff) s).2 in
  Policy.policy s'
  = Policy.with_contracts (Policy.policy s)
      (Policy._active_contracts (Policy.policy s'))
  /\ Policy.aliases s ⊆ Policy.aliases s'
  /\ Policy.aliases s' ⊆ Policy.aliases s ∪ list_to_set l
  /\ (forall k, k ∉ Policy.aliases s' ->
        Policy._active_contracts (Policy.policy s') !! k
        = Policy._active_contracts (Policy.policy s) !! k)
  /\ dom (Policy._active_contracts (Policy.policy s))
     ⊆ dom (Policy._active_contracts (Policy.policy s')).
Proof.
  revert s. induction l as [|kfrag l IH]; intros s.
  - cbn. rewrite with_contracts_same. repeat split; set_solver.
  - rewrite py_for_cons.
    pose proof (find_turn_frame networky_stuff kfrag s) as Hturn.
    destruct (Policy.find_turn networky_stuff kfrag s) as [[[]|e] s1];
      cbn [snd] in Hturn |- *.
    + specialize (IH s1). cbv zeta in IH, Hturn.
      destruct (py_for l (Policy.find_turn networky_stuff) s1) as [r s'].
      cbn [snd] in IH |- *.
      destruct Hturn as (Hp1 & Hsub1 & Hsup1 & Hout1 & Hdom1).
      destruct IH as (Hp & Hsub & Hsup & Hout & Hdom).
      repeat split.
      * rewrite Hp, Hp1. reflexivity.
      * set_solver.
      * set_solver.
      * intros k Hk. rewrite Hout by assumption. apply Hout1. set_solver.
      * set_solver.
    + destruct Hturn as (Hp1 & Hsub1 & Hsup1 & Hout1 & Hdom1).
      repeat split; try assumption. set_solver.
Qed.

(** X9. [find_n_ursulas] never touches the contracts recorded under other
    fragments and never drops one: the policy comes out with its fields as
    they were but for the contracts, a fragment that is neither one of the
    policy's nor one the contract is held under keeps what it had, and every
    fragment that had a contract has one still.  This holds whatever the
    network answers, also when the search ends in an exception. *)
Theorem find_n_ursulas_keeps_other_contracts (networky_stuff : Policy.Discovery)
    (s : Policy.Negotiation) :
  let s' := (Policy.find_n_ursulas networky_stuff s).2 in
  Policy.policy s'
  = Policy.with_contracts (Policy.policy s)
      (Policy._active_contracts (Policy.policy s'))
  /\ (forall k, k ∉ Policy.kfrags (Policy.policy s) ->
        k ∉ Policy.aliases s ->
        Policy._active_contracts (Policy.policy s') !! k
        = Policy._active_contracts (Policy.policy s) !! k)
  /\ dom (Policy._active_contracts (Policy.policy s))
     ⊆ dom (Policy._active_contracts (Policy.policy s')).
Proof.
  unfold Policy.find_n_ursulas.
  destruct (find_run_frame networky_stuff (Policy.kfrags (Policy.policy s)) s)
    as (Hp & _ & Hsup & Hout & Hdom).
  repeat split; try assumption.
  intros k Hk Ha. apply Hout. set_solver.
Qed.

(** X8. [find_n_ursulas] goes on when the network has no proxy to offer or
    a proxy declines: if every request ends in [NotEnoughQualifiedUrsulas]
    or in an answer that was not accepted, the call returns normally after
    one request a fragment, and the policy and the contract are as they
    were. *)
Theorem find_n_ursulas_passes_over_refusals (networky_stuff : Policy.Discovery)
    (s : Policy.Negotiation) :
  (forall i c,
     Policy.find_ursula networky_stuff i c = Policy.NotEnoughQualifiedUrsulas
     \/ exists ursula result,
          Policy.find_ursula networky_stuff i c = Policy.Found ursula result
          /\ was_accepted result = false) ->
  Policy.find_n_ursulas networky_stuff s
  = (Ok tt,
     {| Policy.policy := Policy.policy s;
        Policy.contract := Policy.contract s;
        Policy.aliases := Policy.aliases s;
        Policy.finds := Policy.finds s + length (Policy.kfrags (Policy.policy s)) |}).
Proof.
  intros Hrefuse. unfold Policy.find_n_ursulas.
  generalize (Policy.kfrags (Policy.policy s)) as l.
  intros l. revert s. induction l as [|kfrag l IH]; intros s.
  - cbn. rewrite Nat.add_0_r. now destruct s.
  - rewrite py_for_cons. unfold Policy.find_turn at 1.
    destruct (Hrefuse (Policy.finds s) (Policy.contract s))
      as [->|(ursula & result & -> & ->)];
      rewrite IH; cbn; repeat f_equal; lia.
Qed.

(** When every request is accepted, the run ends normally with the one
    contract held under every fragment seen, in its last state. *)
Lemma find_run_accepting (networky_stuff : Policy.Discovery) :
  (forall i c, exists ursula result,
     Policy.find_ursula networky_stuff i c = Policy.Found ursula result
     /\ was_accepted result = true) ->
  forall (l : list KFragV) (s : Policy.Negotiation),
  exists s',
    py_for l (Policy.find_turn networky_stuff) s = (Ok tt, s')
    /\ Policy.finds s' = Policy.finds s + length l
    /\ (l <> [] ->
        Policy.aliases s' = list_to_set l ∪ Policy.aliases s
        /\ Policy._active_contracts (Policy.policy s')
           = gset_to_gmap (Policy.contract s') (Policy.aliases s')
               ∪ Policy._active_contracts (Policy.policy s)
        /\ last l = Some (Contract.kfrag (Policy.contract s'))).
Proof.
  intros Haccept l. induction l as [|kfrag l IH]; intros s.
  - exists s. cbn. split; [reflexivity|]. split; [lia|]. intros []. reflexivity.
  - rewrite py_for_cons. unfold Policy.find_turn at 1.
    destruct (Haccept (Policy.finds s) (Policy.contract s))
      as (ursula & result & -> & ->).
    destruct (IH (Policy.activate_and_record s kfrag ursula result))
      as (s' & Hrun & Hfinds & Hrest).
    exists s'. split; [exact Hrun|]. split; [rewrite Hfinds; cbn; lia|].
    intros _. destruct l as [|kfrag' l].
    + cbn in Hrun. injection Hrun as <-. cbn.
      split; [set_solver|]. split; reflexivity.
    + destruct Hrest as (Haliases & Hcontracts & Hlast); [discriminate|].
      split; [rewrite Haliases; cbn; set_solver|].
      split; [|exact Hlast].
      rewrite Hcontracts. cbn [Policy.activate_and_record Policy.policy
        Policy.with_contracts Policy._active_contracts].
      apply rebind_absorbs. rewrite Haliases. cbn. set_solver.
Qed.

(** X7. [find_n_ursulas] is given one contract for all the fragments.  When
    every proxy accepts, each fragment of the policy ends up with that same
    contract, which carries the last fragment of the policy only (the
    mismatch its comment speaks of); one request was made a fragment. *)
Theorem find_n_ursulas_shares_one_contract (networky_stuff : Policy.Discovery)
    (s : Policy.Negotiation) :
  (forall i c, exists ursula result,
     Policy.find_ursula networky_stuff i c = Policy.Found ursula result
     /\ was_accepted result = true) ->
  Policy.kfrags (Policy.policy s) <> [] ->
  exists s',
    Policy.find_n_ursulas networky_stuff s = (Ok tt, s')
    /\ (forall k, k ∈ Policy.kfrags (Policy.policy s) ->
          Policy._active_contracts (Policy.policy s') !! k
          = Some (Policy.contract s'))
    /\ last (Policy.kfrags (Policy.policy s))
       = Some (Contract.kfrag (Policy.contract s'))
    /\ Policy.finds s'
       = Policy.finds s + length (Policy.kfrags (Policy.policy s)).
Proof.
  intros Haccept Hsome. unfold Policy.find_n_ursulas.
  destruct (find_run_accepting networky_stuff Haccept
              (Policy.kfrags (Policy.policy s)) s)
    as (s' & Hrun & Hfinds & Hrest).
  destruct (Hrest Hsome) as (Haliases & Hcontracts & Hlast).
  exists s'. repeat split; try assumption.
  intros k Hk. rewrite Hcontracts.
  apply lookup_union_Some_l, lookup_gset_to_gmap_Some.
  split; [|reflexivity]. rewrite Haliases. set_solver.
Qed.

End FindingUrsulas.

(** * More on enactment and on the proxy side *)

Section MoreOnEnactment.
Context `{Collaborators}.

(** X5. [enact] never changes the policy, writes nothing to the storage
    network, and asks the network client for one transmission at most:
    whatever the policy and the network, a second fragment is never sent. *)
Theorem enact_sends_at_most_once (networky_stuff : NetworkClient)
    (self : Policy.t) (w : World) :
  let after := (Policy.enact networky_stuff (self, w)).2 in
  after.1 = self
  /\ dht_sets after.2 = dht_sets w
  /\ (transmissions after.2 = transmissions w
      \/ exists call, transmissions after.2 = transmissions w ++ [call]).
Proof.
  destruct (Policy.kfrags self) as [|kfrag rest] eqn:Hkfrags.
  - unfold Policy.enact, mbind, M_bind, Policy.get_self. cbn [fst].
    rewrite Hkfrags. cbn. auto.
  - rewrite (enact_first_turn _ _ _ _ _ Hkfrags), enact_body_outcome.
    destruct (Policy.active_contract self kfrag) as [contract|e];
      [|cbn; auto].
    destruct (Contract.encrypt_payload_for_ursula contract) as [pp|e];
      [|cbn; auto].
    destruct (Policy.hrac self) as [hrac|e]; [|cbn; auto].
    cbv zeta.
    destruct (enact_policy networky_stuff _ _ _) as [response|e]; cbn; eauto.
Qed.

(** X6. A policy as [from_alice] makes it has no contract yet: to enact it
    raises [KeyError] for its first fragment, and nothing is sent. *)
Theorem enact_of_new_policy_raises_key_error (networky_stuff : NetworkClient)
    (kfrag : KFragV) (rest : list KFragV) (pfrag : option PFrag)
    (alice : Character) (bob : option Character) (uri : option bytes)
    (secure_random : bytes) (w : World) :
  let policy :=
    Policy.from_alice (kfrag :: rest) pfrag alice bob uri secure_random in
  Policy.enact networky_stuff (policy, w) = (Raise (KeyError kfrag), (policy, w)).
Proof.
  cbv zeta.
  rewrite (enact_first_turn _ _ _ kfrag rest) by reflexivity.
  rewrite enact_body_outcome. unfold Policy.active_contract. cbn.
  now rewrite lookup_empty.
Qed.

(** X2. Ursula registers the sender the payload names before anything is
    verified: when the payload splits into a public key and a msgpack
    remainder she ends up knowing that key, whatever the verification says
    and however the call ends; when it does not split she is as she was. *)
Theorem from_ursula_learns_sender_first (group_payload : bytes)
    (ursula : Character) :
  (Contract.from_ursula group_payload ursula).2
  = match split_msgpack_remainder [pubkey_len] group_payload with
    | Ok ([alice_pubkey_sig], _) =>
        learn_about_actor ursula (from_pubkey_sig_bytes alice_pubkey_sig)
    | _ => ursula
    end.
Proof.
  unfold Contract.from_ursula, mbind, M_bind, lift, get, put, mret, M_ret.
  destruct (split_msgpack_remainder _ group_payload) as [[fields enc]|e];
    [|reflexivity].
  destruct fields as [|pk [|? ?]]; try reflexivity.
  destruct (verify_from _ _ _) as [[verified cleartext]|e]; [|reflexivity].
  destruct verified; cbn [negb];
    (destruct (split_return_remainder _ cleartext) as [[fields pp]|e];
       [|reflexivity];
     destruct fields as [|sig [|? ?]]; try reflexivity;
     destruct (split_return_remainder _ pp) as [[fields pack]|e];
       [|reflexivity];
     destruct fields as [|kf [|? ?]]; reflexivity).
Qed.

(** X3. The payload of a contract activated with a fragment of the fixed width
    splits, the way [from_ursula] splits it, into that fragment and the
    challenge marker. *)
Theorem contract_payload_splits (self : Contract.t) (serialized : bytes)
    (ursula : Character) (result : NegotiationResult) :
  length serialized = kfrag_len ->
  split_return_remainder [kfrag_len]
    (Contract.payload (Contract.activate self (KFrag serialized) ursula result))
  = Ok ([serialized], blit "This might be a ChallengePack").
Proof.
  intros Hlen. unfold split_return_remainder, Contract.payload. cbn [Contract.activate Contract.kfrag kfrag_to_bytes].
  rewrite split_fields_app by assumption. reflexivity.
Qed.


(** X12. A group as its constructor makes it cannot be published: the key of its
    treasure map cannot be computed, [publish_treasure_map] returns for no
    state of the network, and it stores nothing. *)
Theorem constructed_group_never_publishes (uri : bytes) (alice bob : Character)
    (policies : option (list Policy.t)) (w : World) :
  let group := PolicyGroup.__init__ uri alice bob policies in
  PolicyGroup.treasure_map_dht_key group
  = Raise (AttributeError "PolicyGroup" "hrac")
  /\ (forall published,
        (PolicyGroup.publish_treasure_map group w).1 <> Ok published)
  /\ (PolicyGroup.publish_treasure_map group w).2 = w.
Proof.
  cbv zeta. split; [reflexivity|].
  unfold PolicyGroup.publish_treasure_map, mbind, M_bind, lift.
  destruct (encrypt_for _ _ _) as [[enc sig]|e]; cbn; split;
    try reflexivity; intros published; discriminate.
Qed.

(** X13. The identifier of a group is computed once: the first access gives
    [keccak_digest(ownerPublicKey, keccak_digest(uri))] and keeps it, and
    a later access gives what was kept, without looking at the owner or the
    uri again, as long as the digest kept is not empty. *)
Theorem policy_group_id_is_cached (self : PolicyGroup.t) :
  (PolicyGroup._id self = None ->
   (PolicyGroup.id self).1
   = keccak_digest [seal_bytes (PolicyGroup.alice self);
                    keccak_digest [PolicyGroup.uri self]]
   /\ PolicyGroup._id (PolicyGroup.id self).2 = Some (PolicyGroup.id self).1)
  /\ (forall cached,
        PolicyGroup._id self = Some cached -> cached <> [] ->
        PolicyGroup.id self = (cached, self)).
Proof.
  unfold PolicyGroup.id. split.
  - intros ->. now cbn.
  - intros cached -> Hfull. destruct cached as [|x rest]; [contradiction|].
    reflexivity.
Qed.

End MoreOnEnactment.

(** * More on policies and treasure maps *)

(** X10. Once the property [encrypted_challenge_pack] has given a pack, it gives
    that pack on every later access and leaves the policy alone, whatever
    [encrypt_for] would answer by then. *)
Theorem encrypted_challenge_pack_is_kept (first later : Collaborators)
    (self self' : Policy.t) (pack : mp * bytes) :
  @Policy.encrypted_challenge_pack first self = (Ok pack, self') ->
  @Policy.encrypted_challenge_pack later self' = (Ok pack, self').
Proof.
  unfold Policy.encrypted_challenge_pack.
  destruct (Policy._encrypted_challenge_pack self) as [cached|] eqn:Hcache.
  - intros [= <- <-]. now rewrite Hcache.
  - destruct (Policy.bob self) as [bob|]; [|discriminate].
    destruct (encrypt_for _ _ _) as [made|e]; [|discriminate].
    intros [= <- <-]. reflexivity.
Qed.

(** The property [ursula] gives back the proxy last set, and setting it
    makes Alice learn about that proxy; before any is set, reading it
    raises [Ursula.NotFound]. *)
Theorem policy_ursula_set_then_get (self : Policy.t) (first last : Character) :
  Policy.ursula (Policy.set_ursula (Policy.set_ursula self first) last)
  = Ok last
  /\ known_actors
       (Policy.alice (Policy.set_ursula (Policy.set_ursula self first) last))
     = seal_bytes last :: seal_bytes first :: known_actors (Policy.alice self)
  /\ (forall alice bob kfrags pfrag uri secure_random,
        Policy.ursula
          (Policy.__init__ alice bob kfrags pfrag uri secure_random)
        = Raise (CollaboratorError "Ursula.NotFound")).
Proof. repeat split. Qed.

(** X14. Adding proxies to a treasure map appends their discovery identifiers,
    in the order they were added, after the ones it had. *)
Theorem treasure_map_add_ursula_appends (self : TreasureMap.t)
    (ursulas : list Character) :
  TreasureMap.ids (foldl TreasureMap.add_ursula self ursulas)
  = TreasureMap.ids self ++ map interface_dht_key ursulas
  /\ TreasureMap.__len__ (foldl TreasureMap.add_ursula self ursulas)
     = TreasureMap.__len__ self + length ursulas.
Proof.
  revert self. induction ursulas as [|ursula ursulas IH]; intros self.
  - cbn. rewrite app_nil_r. split; [reflexivity|]. lia.
  - cbn [foldl]. destruct (IH (TreasureMap.add_ursula self ursula)) as [Hids Hlen].
    split.
    + rewrite Hids. cbn. now rewrite <- app_assoc.
    + rewrite Hlen. unfold TreasureMap.__len__. cbn.
      rewrite length_app. cbn. lia.
Qed.

(** [add_ursula] on a map changes its list in place: the map, and every
    map that holds the same list, then shows what [TreasureMap.add_ursula]
    says; maps that hold another list show what they did. *)
Lemma add_ursula_in_view (store : gmap nat (list bytes))
    (self other : TreasureMap.obj) (ursula : Character) :
  is_Some (store !! TreasureMap.ids_at self) ->
  TreasureMap.view (TreasureMap.add_ursula_in self ursula store).2 other
  = if decide (TreasureMap.ids_at self = TreasureMap.ids_at other)
    then TreasureMap.add_ursula (TreasureMap.view store other) ursula
    else TreasureMap.view store other.
Proof.
  intros [held Hheld]. unfold TreasureMap.view, TreasureMap.add_ursula_in.
  cbn [snd]. rewrite lookup_alter. case_decide as Hsame; [|reflexivity].
  rewrite <- Hsame, Hheld. reflexivity.
Qed.

(** The constructor keeps the list it is given when that list is not
    empty: maps made from one such list hold it together.  Given an empty
    list or none, it makes a list no map held before. *)
Lemma init_in_keeps_or_makes (store : gmap nat (list bytes))
    (ursula_interface_ids : option nat) :
  match ursula_interface_ids ≫= (fun given => store !! given) with
  | Some (_ :: _) =>
      exists given,
        ursula_interface_ids = Some given
        /\ TreasureMap.init_in ursula_interface_ids store
           = (Ok {| TreasureMap.ids_at := given |}, store)
  | _ =>
      exists made,
        store !! made = None
        /\ TreasureMap.init_in ursula_interface_ids store
           = (Ok {| TreasureMap.ids_at := made |}, <[made := []]> store)
  end.
Proof.
  assert (Hfresh : store !! fresh (dom store) = None).
  { apply not_elem_of_dom, is_fresh. }
  unfold TreasureMap.init_in.
  destruct ursula_interface_ids as [given|]; cbn; [|eauto].
  destruct (store !! given) as [[|x held]|]; eauto.
Qed.

(** X15. Equality of treasure maps is equality of the identifiers they
    hold, in order, and [add_ursula] appends in place.  Two maps that hold
    different lists are equal after one proxy was added to each exactly
    when they were equal before and the two proxies have the same discovery
    identifier.  Two maps that hold one list (made from the same non-empty
    list) each show both additions, and are equal whatever the proxies. *)
Theorem treasure_maps_eq_after_add (store : gmap nat (list bytes))
    (self other : TreasureMap.obj) (ursula ursula' : Character) :
  is_Some (store !! TreasureMap.ids_at self) ->
  is_Some (store !! TreasureMap.ids_at other) ->
  let store' :=
    (TreasureMap.add_ursula_in other ursula'
       (TreasureMap.add_ursula_in self ursula store).2).2 in
  (TreasureMap.ids_at self <> TreasureMap.ids_at other ->
   (TreasureMap.eq_in store' self other = true
    <-> TreasureMap.eq_in store self other = true
        /\ interface_dht_key ursula = interface_dht_key ursula'))
  /\ (TreasureMap.ids_at self = TreasureMap.ids_at other ->
      TreasureMap.eq_in store' self other = true
      /\ TreasureMap.ids (TreasureMap.view store' self)
         = TreasureMap.ids (TreasureMap.view store self)
             ++ [interface_dht_key ursula; interface_dht_key ursula']
      /\ TreasureMap.ids (TreasureMap.view store' other)
         = TreasureMap.ids (TreasureMap.view store other)
             ++ [interface_dht_key ursula; interface_dht_key ursula']).
Proof.
  intros [held Hheld] [held' Hheld'] store'. subst store'.
  unfold TreasureMap.eq_in, TreasureMap.__eq__, TreasureMap.view,
    TreasureMap.add_ursula_in.
  cbn [snd TreasureMap.ids]. split.
  - intros Hne.
    rewrite (lookup_alter_ne _ _ (TreasureMap.ids_at other)
               (TreasureMap.ids_at self)) by congruence.
    rewrite !lookup_alter_eq.
    rewrite (lookup_alter_ne _ _ (TreasureMap.ids_at self)
               (TreasureMap.ids_at other)) by congruence.
    rewrite Hheld, Hheld'. cbn. rewrite !bool_decide_eq_true. split.
    + intros Heq. apply app_inj_tail in Heq. exact Heq.
    + intros [-> ->]. reflexivity.
  - intros Hsame. rewrite <- Hsame in *.
    rewrite !lookup_alter_eq, Hheld. cbn.
    rewrite bool_decide_eq_true, <- app_assoc. repeat split.
Qed.

(** * More on work orders *)

Section MoreOnWorkOrders.
Context `{Collaborators}.

(** What the parse returns, and that the HRAC plays no part in it. *)
Lemma from_rest_payload_inv (kfrag_hrac rest_payload : bytes)
    (order : WorkOrder.t) :
  WorkOrder.from_rest_payload kfrag_hrac rest_payload = Ok order ->
  exists signature bob_pubkey_sig receipt_bytes pfrags,
    order = {| WorkOrder.bob := from_pubkey_sig_bytes bob_pubkey_sig;
               WorkOrder.kfrag_hrac := kfrag_hrac;
               WorkOrder.pfrags := pfrags;
               WorkOrder.receipt_bytes := receipt_bytes;
               WorkOrder.receipt_signature := signature;
               WorkOrder.ursula_id := None |}
    /\ forall other_hrac,
         WorkOrder.from_rest_payload other_hrac rest_payload
         = Ok {| WorkOrder.bob := from_pubkey_sig_bytes bob_pubkey_sig;
                 WorkOrder.kfrag_hrac := other_hrac;
                 WorkOrder.pfrags := pfrags;
                 WorkOrder.receipt_bytes := receipt_bytes;
                 WorkOrder.receipt_signature := signature;
                 WorkOrder.ursula_id := None |}.
Proof.
  unfold WorkOrder.from_rest_payload.
  destruct (split_msgpack_remainder _ rest_payload)
    as [[fields remainder]|e]; cbn; [|discriminate].
  destruct fields as [|signature [|bob_pubkey_sig [|? ?]]]; try discriminate.
  destruct (unpack_pair remainder) as [[receipt packed]|e];
    cbn -[WorkOrder.load_pfrags]; [|discriminate].
  destruct (WorkOrder.load_pfrags packed) as [pfrags|e]; cbn; [|discriminate].
  destruct receipt as [| |receipt|]; cbn; try discriminate.
  destruct (signature_verify signature receipt bob_pubkey_sig);
    cbn; [|discriminate].
  intros [= <-]. now exists signature, bob_pubkey_sig, receipt, pfrags.
Qed.

(** X16. Nothing in the payload covers the HRAC: a payload accepted under one
    HRAC is accepted under any other, as the same order but for the HRAC it
    records.  The order parsed names no proxy, and its Bob, known by his
    public key, cannot sign. *)
Theorem from_rest_payload_takes_any_hrac (kfrag_hrac other_hrac : bytes)
    (rest_payload : bytes) (order : WorkOrder.t) :
  WorkOrder.from_rest_payload kfrag_hrac rest_payload = Ok order ->
  WorkOrder.from_rest_payload other_hrac rest_payload
  = Ok {| WorkOrder.bob := WorkOrder.bob order;
          WorkOrder.kfrag_hrac := other_hrac;
          WorkOrder.pfrags := WorkOrder.pfrags order;
          WorkOrder.receipt_bytes := WorkOrder.receipt_bytes order;
          WorkOrder.receipt_signature := WorkOrder.receipt_signature order;
          WorkOrder.ursula_id := WorkOrder.ursula_id order |}
  /\ WorkOrder.kfrag_hrac order = kfrag_hrac
  /\ WorkOrder.ursula_id order = None
  /\ signing_key (WorkOrder.bob order) = None.
Proof.
  intros Hparse.
  destruct (from_rest_payload_inv _ _ _ Hparse)
    as (signature & pk & receipt & pfrags & -> & Hany).
  rewrite (Hany other_hrac). repeat split.
Qed.

(** X17. An order parsed from the wire cannot be printed: it names no proxy, and
    [__repr__] hands that [None] to [hexlify]. *)
Theorem repr_of_parsed_order_raises (kfrag_hrac rest_payload : bytes)
    (order : WorkOrder.t) :
  WorkOrder.from_rest_payload kfrag_hrac rest_payload = Ok order ->
  WorkOrder.__repr__ order
  = Raise (TypeError "a bytes-like object is required, not 'NoneType'").
Proof.
  intros Hparse.
  destruct (from_rest_payload_inv _ _ _ Hparse)
    as (signature & pk & receipt & pfrags & -> & _).
  reflexivity.
Qed.

(** X18. The receipt names the proxy and nothing else: the signature Bob put on
    an order is accepted with any other list of fragments in the payload,
    and the order parsed compares equal to the order Bob made. *)
Theorem receipt_does_not_cover_pfrags (kfrag_hrac : bytes)
    (pfrags pfrags' : list PFrag) (ursula_dht_key : bytes) (bob : Character)
    (order : WorkOrder.t) :
  well_keyed bob ->
  pfrags_restorable pfrags' ->
  round_trips (packed_pfrags_of pfrags') ->
  round_trips (packed_receipt_of (blit "wo:" ++ ursula_dht_key) pfrags') ->
  WorkOrder.constructed_by_bob kfrag_hrac pfrags ursula_dht_key bob = Ok order ->
  exists parsed,
    WorkOrder.from_rest_payload kfrag_hrac
      (WorkOrder.payload
         {| WorkOrder.bob := bob;
            WorkOrder.kfrag_hrac := kfrag_hrac;
            WorkOrder.pfrags := pfrags';
            WorkOrder.receipt_bytes := WorkOrder.receipt_bytes order;
            WorkOrder.receipt_signature := WorkOrder.receipt_signature order;
            WorkOrder.ursula_id := WorkOrder.ursula_id order |})
    = Ok parsed
    /\ WorkOrder.pfrags parsed = pfrags'
    /\ WorkOrder.__eq__ parsed order = true.
Proof.
  intros [Hkey Hsigns] Hrestore Hinner Houter Hmade.
  destruct (constructed_by_bob_inv _ _ _ _ _ Hmade) as (key & Hsk & ->).
  destruct (Hsigns key (blit "wo:" ++ ursula_dht_key) Hsk) as [Hlen Hverif].
  eexists. split.
  - rewrite from_rest_payload_payload by assumption.
    cbn [WorkOrder.receipt_signature WorkOrder.receipt_bytes WorkOrder.bob
         WorkOrder.pfrags].
    rewrite Hverif. reflexivity.
  - split; [reflexivity|]. unfold WorkOrder.__eq__.
    now apply bool_decide_eq_true.
Qed.

(** X19. The order parsed from the payload of an order Bob made serializes to
    that same payload, parses from it again as itself, and compares equal
    to the order Bob made, though it has lost the proxy identifier. *)
Theorem parsed_order_serializes_alike (kfrag_hrac : bytes)
    (pfrags : list PFrag) (ursula_dht_key : bytes) (bob : Character)
    (order : WorkOrder.t) :
  well_keyed bob ->
  pfrags_restorable pfrags ->
  round_trips (packed_pfrags_of pfrags) ->
  round_trips (packed_receipt_of (blit "wo:" ++ ursula_dht_key) pfrags) ->
  WorkOrder.constructed_by_bob kfrag_hrac pfrags ursula_dht_key bob = Ok order ->
  exists parsed,
    WorkOrder.from_rest_payload kfrag_hrac (WorkOrder.payload order) = Ok parsed
    /\ WorkOrder.payload parsed = WorkOrder.payload order
    /\ WorkOrder.from_rest_payload kfrag_hrac (WorkOrder.payload parsed)
       = Ok parsed
    /\ WorkOrder.__eq__ parsed order = true
    /\ parsed <> order.
Proof.
  intros Hbob Hrestore Hinner Houter Hmade.
  pose proof (from_rest_payload_constructed kfrag_hrac kfrag_hrac _ _ _ _
                Hbob Hrestore Hinner Houter Hmade) as Hparse.
  destruct (constructed_by_bob_inv _ _ _ _ _ Hmade) as (key & Hsk & ->).
  eexists. split; [exact Hparse|].
  split; [reflexivity|]. split; [exact Hparse|]. split.
  - unfold WorkOrder.__eq__. now apply bool_decide_eq_true.
  - discriminate.
Qed.

(** X20. Orders Bob makes for proxies with different discovery identifiers are
    never equal; orders for one proxy carry the same receipt bytes,
    whatever the HRAC and the fragments. *)
Theorem orders_for_different_proxies_differ (hrac1 hrac2 : bytes)
    (pfrags1 pfrags2 : list PFrag) (key1 key2 : bytes) (bob1 bob2 : Character)
    (order1 order2 : WorkOrder.t) :
  WorkOrder.constructed_by_bob hrac1 pfrags1 key1 bob1 = Ok order1 ->
  WorkOrder.constructed_by_bob hrac2 pfrags2 key2 bob2 = Ok order2 ->
  (key1 <> key2 -> WorkOrder.__eq__ order1 order2 = false)
  /\ (key1 = key2 ->
      WorkOrder.receipt_bytes order1 = WorkOrder.receipt_bytes order2).
Proof.
  intros Hmade1 Hmade2.
  destruct (constructed_by_bob_inv _ _ _ _ _ Hmade1) as (sk1 & _ & ->).
  destruct (constructed_by_bob_inv _ _ _ _ _ Hmade2) as (sk2 & _ & ->).
  split.
  - intros Hne. unfold WorkOrder.__eq__. apply bool_decide_eq_false.
    cbn [WorkOrder.receipt_bytes WorkOrder.receipt_signature].
    intros Heq. apply Hne.
    apply (app_inv_head (blit "wo:")). congruence.
  - intros ->. reflexivity.
Qed.

End MoreOnWorkOrders.

(** * More runs on concrete inputs *)

Section MoreRuns.
#[local] Existing Instance Toy.collaborators.

(** Two fragments, proxies P and Q accepting in turn: both fragments end
    up with the one contract, which carries the second fragment. *)
Lemma find_n_ursulas_shares_one_contract_witness :
  exists s',
    Policy.find_n_ursulas Cases.accepting Cases.opening = (Ok tt, s')
    /\ (forall k, k ∈ Policy.kfrags (Policy.policy Cases.opening) ->
          Policy._active_contracts (Policy.policy s') !! k
          = Some (Policy.contract s'))
    /\ last (Policy.kfrags (Policy.policy Cases.opening))
       = Some (Contract.kfrag (Policy.contract s'))
    /\ Policy.finds s'
       = Policy.finds Cases.opening
         + length (Policy.kfrags (Policy.policy Cases.opening)).
Proof.
  apply (find_n_ursulas_shares_one_contract Cases.accepting Cases.opening).
  - intros i c. eexists _, _. split; reflexivity.
  - discriminate.
Defined.

(** The same policy on the network that offers no proxy or a declining
    one. *)
Lemma find_n_ursulas_passes_over_refusals_witness :
  Policy.find_n_ursulas Cases.refusing Cases.opening
  = (Ok tt,
     {| Policy.policy := Policy.policy Cases.opening;
        Policy.contract := Policy.contract Cases.opening;
        Policy.aliases := Policy.aliases Cases.opening;
        Policy.finds :=
          Policy.finds Cases.opening
          + length (Policy.kfrags (Policy.policy Cases.opening)) |}).
Proof.
  apply (find_n_ursulas_passes_over_refusals Cases.refusing Cases.opening).
  intros i c. cbn. destruct (Nat.even i).
  - left. reflexivity.
  - right. eexists _, _. split; reflexivity.
Defined.

Lemma contract_payload_splits_witness :
  split_return_remainder [kfrag_len]
    (Contract.payload
       (Contract.activate Cases.offer (KFrag (blit "kf1")) Toy.ursula_p
          {| was_accepted := true |}))
  = Ok ([blit "kf1"], blit "This might be a ChallengePack").
Proof.
  apply (contract_payload_splits Cases.offer (blit "kf1") Toy.ursula_p
           {| was_accepted := true |}).
  reflexivity.
Defined.

(** The pack made when encryption worked is handed out when it no longer
    does. *)
Lemma encrypted_challenge_pack_is_kept_witness :
  @Policy.encrypted_challenge_pack Cases.no_encryption Cases.policy_with_pack
  = (Ok Cases.the_pack, Cases.policy_with_pack).
Proof.
  apply (encrypted_challenge_pack_is_kept Toy.collaborators
           Cases.no_encryption Scenario.complete_policy).
  vm_compute. reflexivity.
Defined.

Lemma from_rest_payload_takes_any_hrac_witness :
  WorkOrder.from_rest_payload (blit "another hrac")
    (WorkOrder.payload Scenario.order_for_p)
  = Ok {| WorkOrder.bob := WorkOrder.bob Cases.parsed_order_for_p;
          WorkOrder.kfrag_hrac := blit "another hrac";
          WorkOrder.pfrags := WorkOrder.pfrags Cases.parsed_order_for_p;
          WorkOrder.receipt_bytes :=
            WorkOrder.receipt_bytes Cases.parsed_order_for_p;
          WorkOrder.receipt_signature :=
            WorkOrder.receipt_signature Cases.parsed_order_for_p;
          WorkOrder.ursula_id := WorkOrder.ursula_id Cases.parsed_order_for_p |}
  /\ WorkOrder.kfrag_hrac Cases.parsed_order_for_p = Scenario.the_hrac
  /\ WorkOrder.ursula_id Cases.parsed_order_for_p = None
  /\ signing_key (WorkOrder.bob Cases.parsed_order_for_p) = None.
Proof.
  apply (from_rest_payload_takes_any_hrac Scenario.the_hrac
           (blit "another hrac") (WorkOrder.payload Scenario.order_for_p)
           Cases.parsed_order_for_p).
  vm_compute. reflexivity.
Defined.

Lemma repr_of_parsed_order_raises_witness :
  WorkOrder.__repr__ Cases.parsed_order_for_p
  = Raise (TypeError "a bytes-like object is required, not 'NoneType'").
Proof.
  apply (repr_of_parsed_order_raises Scenario.the_hrac
           (WorkOrder.payload Scenario.order_for_p) Cases.parsed_order_for_p).
  vm_compute. reflexivity.
Defined.

(** The order Bob made prints. *)
Example repr_of_order_for_p :
  WorkOrder.__repr__ Scenario.order_for_p
  = Ok "WorkOrder (pfrags: [b'706631']) b'776f3a' for b'646874'".
Proof. vm_compute. reflexivity. Qed.

Lemma receipt_does_not_cover_pfrags_witness :
  exists parsed,
    WorkOrder.from_rest_payload Scenario.the_hrac
      (WorkOrder.payload
         {| WorkOrder.bob := Toy.bob;
            WorkOrder.kfrag_hrac := Scenario.the_hrac;
            WorkOrder.pfrags := Cases.other_pfrags;
            WorkOrder.receipt_bytes :=
              WorkOrder.receipt_bytes Scenario.order_for_p;
            WorkOrder.receipt_signature :=
              WorkOrder.receipt_signature Scenario.order_for_p;
            WorkOrder.ursula_id := WorkOrder.ursula_id Scenario.order_for_p |})
    = Ok parsed
    /\ WorkOrder.pfrags parsed = Cases.other_pfrags
    /\ WorkOrder.__eq__ parsed Scenario.order_for_p = true.
Proof.
  apply (receipt_does_not_cover_pfrags Scenario.the_hrac Scenario.the_pfrags
           Cases.other_pfrags (interface_dht_key Toy.ursula_p) Toy.bob
           Scenario.order_for_p).
  - apply toy_actor_well_keyed. reflexivity.
  - apply toy_pfrags_restorable.
  - vm_compute. reflexivity.
  - vm_compute. reflexivity.
  - vm_compute. reflexivity.
Defined.

Lemma parsed_order_serializes_alike_witness :
  exists parsed,
    WorkOrder.from_rest_payload Scenario.the_hrac
      (WorkOrder.payload Scenario.order_for_p) = Ok parsed
    /\ WorkOrder.payload parsed = WorkOrder.payload Scenario.order_for_p
    /\ WorkOrder.from_rest_payload Scenario.the_hrac (WorkOrder.payload parsed)
       = Ok parsed
    /\ WorkOrder.__eq__ parsed Scenario.order_for_p = true
    /\ parsed <> Scenario.order_for_p.
Proof.
  apply (parsed_order_serializes_alike Scenario.the_hrac Scenario.the_pfrags
           (interface_dht_key Toy.ursula_p) Toy.bob Scenario.order_for_p).
  - apply toy_actor_well_keyed. reflexivity.
  - apply toy_pfrags_restorable.
  - vm_compute. reflexivity.
  - vm_compute. reflexivity.
  - vm_compute. reflexivity.
Defined.

Lemma orders_for_different_proxies_differ_witness :
  WorkOrder.__eq__ Scenario.order_for_p Cases.order_for_q = false.
Proof.
  refine (proj1 (orders_for_different_proxies_differ Scenario.the_hrac
                   Scenario.the_hrac Scenario.the_pfrags Cases.other_pfrags
                   (interface_dht_key Toy.ursula_p)
                   (interface_dht_key Toy.ursula_q) Toy.bob Toy.bob
                   Scenario.order_for_p Cases.order_for_q _ _) _).
  - vm_compute. reflexivity.
  - vm_compute. reflexivity.
  - vm_compute. discriminate.
Defined.

(** Two maps made from one list of one identifier, proxy P added to the
    first and proxy Q to the second: both hold the three identifiers and
    are equal.  Two maps made from two lists differ after the same
    additions, as the proxies do. *)
Lemma treasure_maps_eq_after_add_witness :
  (TreasureMap.init_in (Some 0) Cases.one_list
   = (Ok Cases.map_of_list, Cases.one_list)
   /\ TreasureMap.eq_in
        (TreasureMap.add_ursula_in Cases.map_of_list Toy.ursula_q
           (TreasureMap.add_ursula_in Cases.map_of_list Toy.ursula_p
              Cases.one_list).2).2
        Cases.map_of_list Cases.map_of_list = true
   /\ TreasureMap.ids
        (TreasureMap.view
           (TreasureMap.add_ursula_in Cases.map_of_list Toy.ursula_q
              (TreasureMap.add_ursula_in Cases.map_of_list Toy.ursula_p
                 Cases.one_list).2).2
           Cases.map_of_list)
      = [blit "dht-O"; blit "dht-P"; blit "dht-Q"])
  /\ (TreasureMap.eq_in
        (TreasureMap.add_ursula_in Cases.map_of_other_list Toy.ursula_q
           (TreasureMap.add_ursula_in Cases.map_of_list Toy.ursula_p
              Cases.two_lists).2).2
        Cases.map_of_list Cases.map_of_other_list = true
      <-> TreasureMap.eq_in Cases.two_lists Cases.map_of_list
            Cases.map_of_other_list = true
          /\ interface_dht_key Toy.ursula_p = interface_dht_key Toy.ursula_q).
Proof.
  split; [split; [vm_compute; reflexivity|]|].
  - pose proof (proj2 (treasure_maps_eq_after_add Cases.one_list
                         Cases.map_of_list Cases.map_of_list
                         Toy.ursula_p Toy.ursula_q
                         (ex_intro _ [blit "dht-O"] eq_refl)
                         (ex_intro _ [blit "dht-O"] eq_refl)) eq_refl)
      as (Heq & Hids & _).
    split; [exact Heq|exact Hids].
  - apply (proj1 (treasure_maps_eq_after_add Cases.two_lists
                    Cases.map_of_list Cases.map_of_other_list
                    Toy.ursula_p Toy.ursula_q
                    (ex_intro _ [blit "dht-O"] eq_refl)
                    (ex_intro _ [blit "dht-O"] eq_refl))).
    discriminate.
Defined.

End MoreRuns.
